(** * elf: the cache-bust resolver and the permalink template

    A shallow embedding of the two pieces of logic the starter kit owns:

    - [src/_data/cacheBust.js]: the data file that maps every asset key to a
      cache-busting token (an MD5 hex digest in a production build, the value
      of [Date.now()] otherwise);
    - the [permalink] template of [src/_pages/_pages.json]:
      [page.filePathStem.replace('/_pages', '').replace('/index', '')]
      followed by [/index.html].

    JavaScript values are modelled as the code uses them: strings as
    [string], the numbers returned by [Date.now()] as [Z], plain objects as
    association lists kept in property-enumeration order, exceptions as an
    outcome type, and the ambient process state (environment, file system,
    clock) as an explicit world threaded through a small monad. *)

From Stdlib Require Import ZArith NArith List Bool Lia Arith.
From Stdlib.Strings Require Import String Ascii Byte.
Import ListNotations.
Open Scope string_scope.

(** ** MD5 (RFC 1321) and its hexadecimal rendering

    [md5File.sync] comes from the npm package [md5-file]: it opens the file,
    feeds its bytes to an MD5 hash and returns [digest('hex')].  The digest
    is written out here on 32-bit words carried by [Z]. *)

Module MD5.
Open Scope Z_scope.

Definition mask32 : Z := 0xffffffff.
Definition add32 (x y : Z) : Z := Z.land (x + y) mask32.
Definition not32 (x : Z) : Z := Z.lxor x mask32.
Definition rotl32 (x c : Z) : Z :=
  Z.land (Z.lor (Z.shiftl x c) (Z.shiftr x (32 - c))) mask32.

(** [K i = floor (2^32 * |sin (i + 1)|)]. *)
Definition K : list Z :=
  [ 0xd76aa478; 0xe8c7b756; 0x242070db; 0xc1bdceee;
    0xf57c0faf; 0x4787c62a; 0xa8304613; 0xfd469501;
    0x698098d8; 0x8b44f7af; 0xffff5bb1; 0x895cd7be;
    0x6b901122; 0xfd987193; 0xa679438e; 0x49b40821;
    0xf61e2562; 0xc040b340; 0x265e5a51; 0xe9b6c7aa;
    0xd62f105d; 0x02441453; 0xd8a1e681; 0xe7d3fbc8;
    0x21e1cde6; 0xc33707d6; 0xf4d50d87; 0x455a14ed;
    0xa9e3e905; 0xfcefa3f8; 0x676f02d9; 0x8d2a4c8a;
    0xfffa3942; 0x8771f681; 0x6d9d6122; 0xfde5380c;
    0xa4beea44; 0x4bdecfa9; 0xf6bb4b60; 0xbebfbc70;
    0x289b7ec6; 0xeaa127fa; 0xd4ef3085; 0x04881d05;
    0xd9d4d039; 0xe6db99e5; 0x1fa27cf8; 0xc4ac5665;
    0xf4292244; 0x432aff97; 0xab9423a7; 0xfc93a039;
    0x655b59c3; 0x8f0ccc92; 0xffeff47d; 0x85845dd1;
    0x6fa87e4f; 0xfe2ce6e0; 0xa3014314; 0x4e0811a1;
    0xf7537e82; 0xbd3af235; 0x2ad7d2bb; 0xeb86d391 ].

(** Per-step left-rotation amounts. *)
Definition shift : list Z :=
  [ 7; 12; 17; 22; 7; 12; 17; 22; 7; 12; 17; 22; 7; 12; 17; 22;
    5;  9; 14; 20; 5;  9; 14; 20; 5;  9; 14; 20; 5;  9; 14; 20;
    4; 11; 16; 23; 4; 11; 16; 23; 4; 11; 16; 23; 4; 11; 16; 23;
    6; 10; 15; 21; 6; 10; 15; 21; 6; 10; 15; 21; 6; 10; 15; 21 ].

Record state := mkState { sa : Z; sb : Z; sc : Z; sd : Z }.

Definition init : state :=
  mkState 0x67452301 0xefcdab89 0x98badcfe 0x10325476.

(** Little-endian 32-bit words of a block of bytes. *)
Fixpoint words (bs : list Z) : list Z :=
  match bs with
  | b0 :: b1 :: b2 :: b3 :: rest =>
      (b0 + Z.shiftl b1 8 + Z.shiftl b2 16 + Z.shiftl b3 24) :: words rest
  | _ => []
  end.

Definition step (M : list Z) (st : state) (i : nat) : state :=
  let '(mkState a b c d) := st in
  let j := Z.of_nat i in
  let '(f, g) :=
    if j <? 16 then (Z.lor (Z.land b c) (Z.land (not32 b) d), j)
    else if j <? 32 then
      (Z.lor (Z.land d b) (Z.land (not32 d) c), (5 * j + 1) mod 16)
    else if j <? 48 then (Z.lxor b (Z.lxor c d), (3 * j + 5) mod 16)
    else (Z.lxor c (Z.lor b (not32 d)), (7 * j) mod 16) in
  let f' := add32 (add32 (add32 f a) (nth i K 0)) (nth (Z.to_nat g) M 0) in
  mkState d (add32 b (rotl32 f' (nth i shift 0))) b c.

Definition compress (st : state) (block : list Z) : state :=
  let st' := fold_left (step (words block)) (seq 0 64) st in
  mkState (add32 (sa st) (sa st')) (add32 (sb st) (sb st'))
          (add32 (sc st) (sc st')) (add32 (sd st) (sd st')).

(** [hash.update]: bytes are buffered and every full 64-byte block is
    folded into the chaining state. *)
Definition absorb (acc : state * list Z) (b : Z) : state * list Z :=
  let '(st, buf) := acc in
  let buf' := (buf ++ [b])%list in
  if (List.length buf' =? 64)%nat then (compress st buf', []) else (st, buf').

Definition le_bytes (n : nat) (x : Z) : list Z :=
  map (fun i => Z.land (Z.shiftr x (8 * Z.of_nat i)) 0xff) (seq 0 n).

(** The padding appended to a message of [len] bytes. *)
Definition padding (len : nat) : list Z :=
  let l := Z.of_nat len in
  (0x80 :: repeat 0 (Z.to_nat ((55 - l) mod 64)) ++ le_bytes 8 (8 * l))%list.

Definition digest (bytes : list byte) : state :=
  let msg := map (fun b => Z.of_N (Byte.to_N b)) bytes in
  fst (fold_left absorb (msg ++ padding (List.length bytes))%list (init, [])).

Definition hex_digit (x : Z) : ascii :=
  match String.get (Z.to_nat x) "0123456789abcdef" with
  | Some c => c
  | None => "0"%char
  end.

Definition hex_byte (x : Z) : string :=
  String (hex_digit (Z.shiftr x 4)) (String (hex_digit (Z.land x 0xf)) "").

(** [hash.digest('hex')]: the sixteen digest bytes, two lowercase
    hexadecimal digits each. *)
Definition hex (bytes : list byte) : string :=
  let '(mkState a b c d) := digest bytes in
  String.concat ""
    (map hex_byte
         (le_bytes 4 a ++ le_bytes 4 b ++ le_bytes 4 c ++ le_bytes 4 d)).
End MD5.

(** ** JavaScript strings and plain objects *)

Module JS.

Fixpoint drop (n : nat) (s : string) : string :=
  match n, s with
  | O, _ => s
  | S n', String _ s' => drop n' s'
  | S _, EmptyString => EmptyString
  end.

(** [String.prototype.replace(pattern, replacement)] with a string
    pattern: the first occurrence of [pattern], and only that one, is
    replaced.  The replacement is taken literally; the template below
    only ever passes the empty string.  Strings are sequences of bytes
    here; the patterns of the template are ASCII, so a match falls on the
    same characters as it does on JavaScript's UTF-16 code units. *)
Fixpoint replace (pattern replacement s : string) : string :=
  if String.prefix pattern s
  then replacement ++ drop (String.length pattern) s
  else match s with
       | EmptyString => EmptyString
       | String c s' => String c (replace pattern replacement s')
       end.

Fixpoint take (n : nat) (s : string) : string :=
  match n, s with
  | S n', String c s' => String c (take n' s')
  | _, _ => EmptyString
  end.

(** [String.prototype.indexOf(pattern)], with [None] for [-1]. *)
Fixpoint indexOf (pattern s : string) : option nat :=
  if String.prefix pattern s then Some O
  else match s with
       | EmptyString => None
       | String _ s' => option_map S (indexOf pattern s')
       end.

(** [String.prototype.endsWith(suffix)]. *)
Definition endsWith (s suffix : string) : bool :=
  (String.length suffix <=? String.length s)%nat
  && String.eqb (drop (String.length s - String.length suffix) s) suffix.

(** A JavaScript value as the data file produces them: the string
    returned by [md5File.sync] or the number returned by [Date.now()]. *)
Inductive value : Type :=
| VString (s : string)
| VNumber (n : Z).

(** A plain object is the list of its own properties, in the order
    [Object.entries] enumerates them: array-index keys first, ascending,
    then the other string keys in the order they were created. *)
Definition object (V : Type) : Type := list (string * V).

Definition digit_of (c : ascii) : option N :=
  let n := N_of_ascii c in
  if ((48 <=? n) && (n <=? 57))%N then Some (n - 48)%N else None.

Fixpoint parse_digits (acc : N) (s : string) : option N :=
  match s with
  | EmptyString => Some acc
  | String c s' =>
      match digit_of c with
      | Some d => parse_digits (10 * acc + d)%N s'
      | None => None
      end
  end.

(** A key is an array index when it is the canonical decimal form of an
    integer below [2^32 - 1]. *)
Definition array_index (k : string) : option N :=
  match k with
  | EmptyString => None
  | String c rest =>
      if Ascii.eqb c "0" && negb (String.eqb rest "") then None
      else match parse_digits 0 k with
           | Some n => if (n <? 2 ^ 32 - 1)%N then Some n else None
           | None => None
           end
  end.

Section Objects.
Context {V : Type}.

Definition Object_entries (o : object V) : list (string * V) := o.

Definition Object_keys (o : object V) : list string := map fst o.

Fixpoint obj_get (k : string) (o : object V) : option V :=
  match o with
  | [] => None
  | (k', v) :: o' => if String.eqb k' k then Some v else obj_get k o'
  end.

Definition obj_has (k : string) (o : object V) : bool :=
  match obj_get k o with Some _ => true | None => false end.

Fixpoint obj_update (k : string) (v : V) (o : object V) : object V :=
  match o with
  | [] => []
  | (k', v') :: o' =>
      if String.eqb k' k then (k', v) :: o'
      else (k', v') :: obj_update k v o'
  end.

Fixpoint insert_index (n : N) (k : string) (v : V) (o : object V)
  : object V :=
  match o with
  | [] => [(k, v)]
  | (k', v') :: o' =>
      match array_index k' with
      | Some m =>
          if (m <? n)%N then (k', v') :: insert_index n k v o'
          else (k, v) :: o
      | None => (k, v) :: o
      end
  end.

Definition obj_define (k : string) (v : V) (o : object V) : object V :=
  match array_index k with
  | Some n => insert_index n k v o
  | None => (o ++ [(k, v)])%list
  end.

(** [o[k] = v]: an existing property keeps its place, a new one is
    created at the place its key has in the enumeration order. *)
Definition obj_set (k : string) (v : V) (o : object V) : object V :=
  if obj_has k o then obj_update k v o else obj_define k v o.

End Objects.

End JS.

Import JS.

(** ** The process: environment, file system, clock *)

Inductive event : Type :=
| EvNow (t : Z)            (* a call of Date.now() and the value it gave *)
| EvRead (path : string).  (* md5File.sync opening a file for reading *)

(** The errors that escape the code.  [md5File.sync] lets the system error
    of the failed open or read through: no such file or directory
    ([ENOENT]), permission denied ([EACCES]), illegal operation on a
    directory ([EISDIR]); [path] is the path it was reading.  Calling a
    method that a value does not have raises a [TypeError]. *)
Inductive error : Type :=
| ENOENT (path : string)
| EACCES (path : string)
| EISDIR (path : string)
| TypeError (message : string).

(** What a path names on the file system. *)
Inductive file : Type :=
| File (bytes : list byte)  (* a regular file the process may read *)
| Missing                   (* nothing *)
| Denied                    (* a file the process may not read *)
| Directory.                (* a directory *)

Inductive outcome (A : Type) : Type :=
| Return (a : A)
| Throw (e : error).
Arguments Return {A} a.
Arguments Throw {A} e.

Record world : Type := mkWorld {
  ELEVENTY_ENV : option string;          (* process.env.ELEVENTY_ENV *)
  fs : string -> file;                   (* the file system, path by path *)
  clock : nat -> Z;                      (* what the n-th Date.now() returns *)
  samples : nat;                         (* calls of Date.now() so far *)
  trace : list event                     (* effects so far, oldest first *)
}.

(** The bytes of the files that can be read. *)
Definition disk (w : world) (path : string) : option (list byte) :=
  match fs w path with
  | File bytes => Some bytes
  | _ => None
  end.

(** The error reading [path] raises when it is not a readable file. *)
Definition read_error (w : world) (path : string) : error :=
  match fs w path with
  | Denied => EACCES path
  | Directory => EISDIR path
  | _ => ENOENT path
  end.

Definition M (A : Type) : Type := world -> outcome A * world.

Definition ret {A} (a : A) : M A := fun w => (Return a, w).

Definition bind {A B} (m : M A) (k : A -> M B) : M B :=
  fun w =>
    match m w with
    | (Return a, w') => k a w'
    | (Throw e, w') => (Throw e, w')
    end.

Notation "x <- m ;; k" := (bind m (fun x => k))
  (at level 61, m at next level, right associativity).

Definition emit (e : event) (w : world) : world :=
  mkWorld (ELEVENTY_ENV w) (fs w) (clock w) (samples w) (trace w ++ [e])%list.

Definition Date_now : M Z :=
  fun w =>
    let t := clock w (samples w) in
    (Return t,
     mkWorld (ELEVENTY_ENV w) (fs w) (clock w) (S (samples w))
             (trace w ++ [EvNow t])%list).

Definition process_env_ELEVENTY_ENV : M (option string) :=
  fun w => (Return (ELEVENTY_ENV w), w).

(** [md5File.sync(path, ...)]: the extra callback argument is ignored by
    the synchronous entry point. *)
Definition md5File_sync (path : string) : M string :=
  fun w =>
    match disk w path with
    | Some bytes => (Return (MD5.hex bytes), emit (EvRead path) w)
    | None => (Throw (read_error w path), emit (EvRead path) w)
    end.

(** [x === 'production'] for [x] a string or [undefined]. *)
Definition is_production (env : option string) : bool :=
  match env with
  | Some s => String.eqb s "production"
  | None => false
  end.

(** [Array.prototype.reduce(callback, initial)]. *)
Fixpoint reduce {A B} (f : A -> B -> M A) (l : list B) (acc : A) : M A :=
  match l with
  | [] => ret acc
  | x :: l' => acc' <- f acc x ;; reduce f l' acc'
  end.

(** ** [src/_data/cacheBust.js] *)

Definition files : object string :=
  [ ("mainCss", "./src/compiled-assets/main.css");
    ("mainJs", "./src/compiled-assets/main.js");
    ("vendorJs", "./src/compiled-assets/vendor.js") ].

(** [acc[key] = bust] on an object that inherits from [Object.prototype].
    Every key creates or updates an own property, except [__proto__]: that
    assignment reaches the accessor inherited from [Object.prototype],
    whose setter ignores a value that is not an object -- and a token is a
    string or a number. *)
Definition assign (key : string) (bust : value) (acc : object value)
  : object value :=
  if String.eqb key "__proto__" then acc else obj_set key bust acc.

Definition callback (acc : object value) (entry : string * string)
  : M (object value) :=
  let '(key, path) := entry in
  now <- Date_now ;;
  env <- process_env_ELEVENTY_ENV ;;
  bust <- (if is_production env
           then hash <- md5File_sync path ;; ret (VString hash)
           else ret (VNumber now)) ;;
  ret (assign key bust acc).

(** The body of [cacheBust] over an arbitrary registry object. *)
Definition cacheBust_over (registry : object string) : M (object value) :=
  reduce callback (Object_entries registry) [].

Definition cacheBust : M (object value) := cacheBust_over files.

(** ** The [permalink] template of [src/_pages/_pages.json] *)

Definition permalink (filePathStem : string) : string :=
  replace "/index" "" (replace "/_pages" "" filePathStem) ++ "/index.html".

(** ** Vocabulary of the statements *)

Inductive mode : Type := Production | Development.

(** The build mode is what the comparison with ['production'] decides. *)
Definition build_mode (w : world) : mode :=
  if is_production (ELEVENTY_ENV w) then Production else Development.

Definition paths (registry : object string) : list string :=
  map snd (Object_entries registry).

(** The files opened for reading, in order, among the events of a run. *)
Fixpoint reads (evs : list event) : list string :=
  match evs with
  | [] => []
  | EvRead p :: evs' => p :: reads evs'
  | EvNow _ :: evs' => reads evs'
  end.

(** The timestamps sampled, in order, among the events of a run. *)
Fixpoint stamps (evs : list event) : list Z :=
  match evs with
  | [] => []
  | EvNow t :: evs' => t :: stamps evs'
  | EvRead _ :: evs' => stamps evs'
  end.

(** The paths a fail-fast pass over [ps] opens: every path up to and
    including the first one that cannot be read. *)
Fixpoint attempted (d : string -> option (list byte)) (ps : list string)
  : list string :=
  match ps with
  | [] => []
  | p :: ps' =>
      p :: match d p with Some _ => attempted d ps' | None => [] end
  end.

Fixpoint first_unreadable (d : string -> option (list byte))
  (ps : list string) : option string :=
  match ps with
  | [] => None
  | p :: ps' =>
      match d p with Some _ => first_unreadable d ps' | None => Some p end
  end.

(** [k'] stays ahead of [k] in the enumeration order when [k] is created
    after it: the two differ, and if [k] is an array index then [k'] is a
    smaller one. *)
Definition precedes (k' k : string) : bool :=
  negb (String.eqb k' k)
  && match array_index k with
     | None => true
     | Some n =>
         match array_index k' with
         | Some m => (m <? n)%N
         | None => false
         end
     end.

Definition ahead (k' k : string) : Prop := precedes k' k = true.

(** [k] can be created after the keys [before] without moving ahead of any
    of them. *)
Definition comes_after (k : string) (before : list string) : bool :=
  forallb (fun k' => precedes k' k) before.

Fixpoint enumerated_from (before ks : list string) : bool :=
  match ks with
  | [] => true
  | k :: ks' => comes_after k before && enumerated_from (before ++ [k])%list ks'
  end.

(** An association list is (the enumeration of) a plain object when its
    keys are distinct and stand in enumeration order. *)
Definition is_object {V} (o : object V) : bool :=
  enumerated_from [] (Object_keys o).

(** A registry is (the enumeration of) an object literal
    [{ key: 'path', ... }]: its keys are distinct and in enumeration
    order, and none of them is [__proto__], which in a literal names the
    prototype and not an own property. *)
Definition is_registry (o : object string) : bool :=
  is_object o && negb (existsb (String.eqb "__proto__") (Object_keys o)).

(** The token the callback computes for one entry, and the world it leaves
    behind. *)
Definition bust_of (w : world) (path : string) : outcome value :=
  match build_mode w with
  | Production =>
      match disk w path with
      | Some bytes => Return (VString (MD5.hex bytes))
      | None => Throw (read_error w path)
      end
  | Development => Return (VNumber (clock w (samples w)))
  end.

Definition entry_events (w : world) (path : string) : list event :=
  EvNow (clock w (samples w))
  :: match build_mode w with
     | Production => [EvRead path]
     | Development => []
     end.

Definition after_entry (w : world) (path : string) : world :=
  mkWorld (ELEVENTY_ENV w) (fs w) (clock w) (S (samples w))
          (trace w ++ entry_events w path)%list.

(** The events a computation adds to the trace when run from [w]. *)
Definition events_of {A} (m : M A) (w : world) : list event :=
  skipn (List.length (trace w)) (trace (snd (m w))).

(** The paths of the entries the callback runs on: all of them in a
    development build, those up to the first unreadable file in a
    production build. *)
Definition processed (w : world) (ps : list string) : list string :=
  match build_mode w with
  | Production => attempted (disk w) ps
  | Development => ps
  end.

(** *** Sample processes *)

Definition main_css : list byte := list_byte_of_string "body{margin:0}".
Definition main_js : list byte := list_byte_of_string "abc".

(** A disk on which the three compiled assets exist; [vendor.js] has the
    same bytes as [main.js]. *)
Definition compiled_disk (p : string) : option (list byte) :=
  if String.eqb p "./src/compiled-assets/main.css" then Some main_css
  else if String.eqb p "./src/compiled-assets/main.js" then Some main_js
  else if String.eqb p "./src/compiled-assets/vendor.js" then Some main_js
  else None.

(** A disk on which only [main.css] has been compiled. *)
Definition partial_disk (p : string) : option (list byte) :=
  if String.eqb p "./src/compiled-assets/main.css" then Some main_css
  else None.

Definition empty_disk (p : string) : option (list byte) := None.

(** The file system that holds the files of a disk and nothing else. *)
Definition on_disk (d : string -> option (list byte)) (p : string) : file :=
  match d p with
  | Some bytes => File bytes
  | None => Missing
  end.

(** A file system on which [main.css] exists but may not be read. *)
Definition denied_fs (p : string) : file :=
  if String.eqb p "./src/compiled-assets/main.css" then Denied
  else on_disk compiled_disk p.

(** A clock that advances by one millisecond between two samples. *)
Definition ticking_clock (n : nat) : Z := (1600000000000 + Z.of_nat n)%Z.

Definition prod_world : world :=
  mkWorld (Some "production") (on_disk compiled_disk) ticking_clock 0 [].

Definition prod_world_later : world :=
  mkWorld (Some "production") (on_disk compiled_disk) ticking_clock 7
          [EvNow 5%Z].

Definition prod_world_partial : world :=
  mkWorld (Some "production") (on_disk partial_disk) ticking_clock 0 [].

Definition dev_world : world :=
  mkWorld (Some "development") (on_disk empty_disk) ticking_clock 0 [].

Definition prod_world_denied : world :=
  mkWorld (Some "production") denied_fs ticking_clock 0 [].

Definition unset_world : world :=
  mkWorld None (on_disk compiled_disk) ticking_clock 0 [].

(** The table a production build over [compiled_disk] returns. *)
Definition compiled_table : object value :=
  [ ("mainCss", VString "7411b9041dad72eeed20b4bced355941");
    ("mainJs", VString "900150983cd24fb0d6963f7d28e17f72");
    ("vendorJs", VString "900150983cd24fb0d6963f7d28e17f72") ].

(** Every token of a table is a number. *)
Definition all_numbers (o : object value) : Prop :=
  forall k v, obj_get k o = Some v -> exists t, v = VNumber t.

(** The table a development build returns when the clock ticks between
    two samples. *)
Definition ticking_table : object value :=
  [ ("mainCss", VNumber 1600000000000);
    ("mainJs", VNumber 1600000000001);
    ("vendorJs", VNumber 1600000000002) ].

(** *** The two readings of the specification that the code does not meet *)

(** One timestamp per invocation, shared by all entries. *)
Definition shared_timestamp (w : world) : Prop :=
  build_mode w = Development ->
  stamps (events_of cacheBust w) = [clock w (samples w)]
  /\ forall table,
       fst (cacheBust w) = Return table ->
       exists t, forall key v, In (key, v) table -> v = VNumber t.

(** Whatever keeps a registry file from being read, the error is the one
    for a file that does not exist. *)
Definition not_found_on_failure (w : world) : Prop :=
  build_mode w = Production ->
  (exists key path,
      In (key, path) (Object_entries files) /\ disk w path = None) ->
  exists p, fst (cacheBust w) = Throw (ENOENT p).

(** Only a trailing ["/index"] is dropped: a stem whose path below the
    source root does not end in ["/index"] keeps that whole path. *)
Definition drops_only_trailing_index (filePathStem : string) : Prop :=
  let rest := replace "/_pages" "" filePathStem in
  endsWith rest "/index" = false ->
  permalink filePathStem = rest ++ "/index.html".

(** ** [.eleventy.js] *)

(** The options object handed to [htmlmin.minify]. *)
Record minify_options : Type := mkMinifyOptions {
  collapseInlineTagWhitespace : bool;
  collapseWhitespace : bool;
  removeComments : bool;
  sortClassName : bool;
  useShortDoctype : bool
}.

Definition htmlmin_options : minify_options :=
  mkMinifyOptions false true true true true.

(** The output path Eleventy hands to a transform: the path the template
    is written to, or [false] for a template that writes no file. *)
Inductive output_path : Type :=
| PathString (s : string)
| PathFalse.

(** A transform callback: [(content, outputPath) => content]. *)
Definition transform : Type := string -> output_path -> outcome string.

Inductive passthrough : Type :=
| CopyAs (from to : string)   (* addPassthroughCopy({ from: to }) *)
| CopyPath (path : string).   (* addPassthroughCopy(path) *)

(** The calls the configuration function makes on [eleventyConfig]. *)
Inductive api_call : Type :=
| setUseGitIgnore (b : bool)
| addWatchTarget (path : string)
| addPassthroughCopy (what : passthrough)
| addTransform (name : string) (callback : transform).

(** The object the configuration function returns. *)
Record settings : Type := mkSettings {
  dir_includes : string;
  dir_input : string;
  dir_layouts : string;
  dir_output : string;
  markdownTemplateEngine : string;
  templateFormats : list string
}.

(** The callback registered under the name [htmlmin]; [minify] stands for
    [htmlmin.minify] of the [html-minifier] package. *)
Definition htmlmin_transform (minify : string -> minify_options -> string)
  : transform :=
  fun content outputPath =>
    match outputPath with
    | PathString s =>
        if endsWith s ".html"
        then Return (minify content htmlmin_options)
        else Return content
    | PathFalse =>
        (* [false.endsWith] is [undefined], and calling it throws *)
        Throw (TypeError "outputPath.endsWith is not a function")
    end.

(** [module.exports = function(eleventyConfig) { ... }]: the calls made on
    [eleventyConfig], in order, and the returned object. *)
Definition eleventy_js (minify : string -> minify_options -> string)
  : M (list api_call * settings) :=
  let calls :=
    [ setUseGitIgnore false;
      addWatchTarget "./src/compiled-assets/main.css";
      addWatchTarget "./src/compiled-assets/main.js";
      addWatchTarget "./src/compiled-assets/vendor.js";
      addPassthroughCopy (CopyAs "src/compiled-assets" "assets");
      addPassthroughCopy (CopyPath "src/images") ] in
  env <- process_env_ELEVENTY_ENV ;;
  ret ((if is_production env
        then calls ++ [addTransform "htmlmin" (htmlmin_transform minify)]
        else calls)%list,
       mkSettings "_components" "src" "_layouts" "dist" "ejs" ["ejs"; "md"]).

(** What Eleventy does with the registered transforms: the rendered content
    of a template goes through each of them in turn, together with the path
    the template is written to. *)
Fixpoint run_transforms (calls : list api_call) (content : string)
  (outputPath : output_path) : outcome string :=
  match calls with
  | [] => Return content
  | addTransform _ f :: rest =>
      match f content outputPath with
      | Return content' => run_transforms rest content' outputPath
      | Throw e => Throw e
      end
  | _ :: rest => run_transforms rest content outputPath
  end.

Fixpoint watch_targets (calls : list api_call) : list string :=
  match calls with
  | [] => []
  | addWatchTarget p :: rest => p :: watch_targets rest
  | _ :: rest => watch_targets rest
  end.

(** ** More vocabulary *)

(** The events of a pass of the callback over the paths [ps], the clock
    having been sampled [s] times before. *)
Fixpoint run_events (m : mode) (clk : nat -> Z) (s : nat) (ps : list string)
  : list event :=
  match ps with
  | [] => []
  | p :: ps' =>
      EvNow (clk s)
      :: match m with
         | Production => EvRead p :: run_events m clk (S s) ps'
         | Development => run_events m clk (S s) ps'
         end
  end.

(** Strings made of the digits [0-9a-f] only. *)
Definition is_lower_hex (s : string) : bool :=
  forallb (fun c => existsb (Ascii.eqb c)
                            (list_ascii_of_string "0123456789abcdef"))
          (list_ascii_of_string s).

(** A minifier to run the examples with: it drops every space. *)
Fixpoint strip_spaces (s : string) : string :=
  match s with
  | EmptyString => EmptyString
  | String c s' =>
      if Ascii.eqb c " " then strip_spaces s' else String c (strip_spaces s')
  end.

Definition sample_minify (content : string) (_ : minify_options) : string :=
  strip_spaces content.

(** The same process after a rebuild that changed [main.css] only. *)
Definition rebuilt_disk (p : string) : option (list byte) :=
  if String.eqb p "./src/compiled-assets/main.css"
  then Some (list_byte_of_string "body{margin:1}")
  else compiled_disk p.

Definition prod_world_rebuilt : world :=
  mkWorld (Some "production") (on_disk rebuilt_disk) ticking_clock 0 [].

Definition rebuilt_table : object value :=
  [ ("mainCss", VString "2074c7e7dab95e7e5fc268c78755516f");
    ("mainJs", VString "900150983cd24fb0d6963f7d28e17f72");
    ("vendorJs", VString "900150983cd24fb0d6963f7d28e17f72") ].

(** * Proofs *)

(** ** The MD5 model against the RFC 1321 test suite *)

Example md5_empty : MD5.hex [] = "d41d8cd98f00b204e9800998ecf8427e".
Proof. vm_compute. reflexivity. Qed.

Example md5_a :
  MD5.hex (list_byte_of_string "a") = "0cc175b9c0f1b6a831c399e269772661".
Proof. vm_compute. reflexivity. Qed.

Example md5_abc :
  MD5.hex (list_byte_of_string "abc") = "900150983cd24fb0d6963f7d28e17f72".
Proof. vm_compute. reflexivity. Qed.

Example md5_message_digest :
  MD5.hex (list_byte_of_string "message digest")
  = "f96b697d7cb7938d525a2f31aaf161d0".
Proof. vm_compute. reflexivity. Qed.

(** Lengths on both sides of the one-block padding boundary. *)
Example md5_56_bytes :
  MD5.hex (repeat "x"%byte 56) = "668a72d5ba17f08e62dabcafad6db14b".
Proof. vm_compute. reflexivity. Qed.

Example md5_65_bytes :
  MD5.hex (repeat "x"%byte 65) = "1bc932052302d074bdec39795fe00cf6".
Proof. vm_compute. reflexivity. Qed.

(** ** Plain objects *)

Section ObjectFacts.
Context {V : Type}.
Implicit Types (o : object V) (k : string) (v : V).

Lemma obj_get_None_keys k o :
  obj_get k o = None <-> ~ In k (Object_keys o).
Proof.
  induction o as [|[k' v'] o IH]; simpl.
  - tauto.
  - destruct (String.eqb_spec k' k) as [->|Hne].
    + split; [discriminate | intros H; exfalso; apply H; now left].
    + rewrite IH. split.
      * intros H [E|E]; [congruence | auto].
      * intros H E. apply H. now right.
Qed.

Lemma obj_has_false_keys k o :
  obj_has k o = false <-> ~ In k (Object_keys o).
Proof.
  unfold obj_has. rewrite <- obj_get_None_keys.
  destruct (obj_get k o); split; congruence.
Qed.

Lemma obj_has_true_keys k o :
  obj_has k o = true <-> In k (Object_keys o).
Proof.
  destruct (obj_has k o) eqn:E.
  - split; [intros _ | reflexivity].
    destruct (in_dec string_dec k (Object_keys o)) as [H|H]; [exact H|].
    apply obj_has_false_keys in H. congruence.
  - apply obj_has_false_keys in E. split; [discriminate | tauto].
Qed.

Lemma keys_obj_update k v o :
  Object_keys (obj_update k v o) = Object_keys o.
Proof.
  induction o as [|[k' v'] o IH]; simpl; [reflexivity|].
  destruct (String.eqb k' k); simpl; [reflexivity | now rewrite IH].
Qed.

Lemma obj_get_update_same k v o :
  In k (Object_keys o) -> obj_get k (obj_update k v o) = Some v.
Proof.
  induction o as [|[k' v'] o IH]; simpl; [tauto|].
  intros H. destruct (String.eqb_spec k' k) as [->|Hne]; simpl.
  - now rewrite String.eqb_refl.
  - apply String.eqb_neq in Hne as Hb. rewrite Hb. apply IH.
    destruct H; [congruence | assumption].
Qed.

Lemma obj_get_update_other k k' v o :
  k' <> k -> obj_get k' (obj_update k v o) = obj_get k' o.
Proof.
  intros Hne. induction o as [|[k0 v0] o IH]; simpl; [reflexivity|].
  destruct (String.eqb_spec k0 k) as [->|Hk]; simpl.
  - apply not_eq_sym in Hne. apply String.eqb_neq in Hne as ->.
    reflexivity.
  - now rewrite IH.
Qed.

Lemma keys_insert_index n k v o :
  forall x, In x (Object_keys (insert_index n k v o))
            <-> x = k \/ In x (Object_keys o).
Proof.
  intros x. induction o as [|[k' v'] o IH]; simpl.
  - intuition.
  - destruct (array_index k') as [m|]; [destruct (m <? n)%N|]; simpl;
      try rewrite IH; intuition.
Qed.

Lemma obj_get_insert_index_same n k v o :
  ~ In k (Object_keys o) -> obj_get k (insert_index n k v o) = Some v.
Proof.
  induction o as [|[k' v'] o IH]; simpl; intros H.
  - now rewrite String.eqb_refl.
  - assert (Hne : k' <> k) by tauto.
    apply String.eqb_neq in Hne as Hb.
    destruct (array_index k') as [m|]; [destruct (m <? n)%N|]; simpl;
      rewrite ?Hb, ?String.eqb_refl; auto.
Qed.

Lemma obj_get_insert_index_other n k k' v o :
  k' <> k -> obj_get k' (insert_index n k v o) = obj_get k' o.
Proof.
  intros Hne. apply not_eq_sym in Hne as Hne'.
  apply String.eqb_neq in Hne' as Hb.
  induction o as [|[k0 v0] o IH]; simpl.
  - now rewrite Hb.
  - destruct (array_index k0) as [m|]; [destruct (m <? n)%N|]; simpl;
      rewrite ?Hb, ?IH; reflexivity.
Qed.

Lemma obj_get_app k o1 o2 :
  obj_get k (o1 ++ o2)%list
  = match obj_get k o1 with Some v => Some v | None => obj_get k o2 end.
Proof.
  induction o1 as [|[k' v'] o1 IH]; simpl; [reflexivity|].
  destruct (String.eqb k' k); [reflexivity | exact IH].
Qed.

Lemma keys_app o1 o2 :
  Object_keys (o1 ++ o2)%list = (Object_keys o1 ++ Object_keys o2)%list.
Proof. apply map_app. Qed.

Lemma keys_obj_define k v o :
  forall x, In x (Object_keys (obj_define k v o))
            <-> x = k \/ In x (Object_keys o).
Proof.
  intros x. unfold obj_define. destruct (array_index k).
  - apply keys_insert_index.
  - rewrite keys_app, in_app_iff. simpl. intuition.
Qed.

(** After [o[k] = v] the keys are those of [o] and [k]. *)
Lemma keys_obj_set k v o :
  forall x, In x (Object_keys (obj_set k v o))
            <-> x = k \/ In x (Object_keys o).
Proof.
  intros x. unfold obj_set. destruct (obj_has k o) eqn:E.
  - rewrite keys_obj_update. apply obj_has_true_keys in E.
    split; [tauto | intros [->|H]; assumption].
  - apply keys_obj_define.
Qed.

(** After [o[k] = v], reading [k] gives [v]... *)
Lemma obj_get_set_same k v o : obj_get k (obj_set k v o) = Some v.
Proof.
  unfold obj_set. destruct (obj_has k o) eqn:E.
  - apply obj_get_update_same. now apply obj_has_true_keys.
  - apply obj_has_false_keys in E. unfold obj_define.
    destruct (array_index k).
    + now apply obj_get_insert_index_same.
    + rewrite obj_get_app. apply obj_get_None_keys in E. rewrite E.
      simpl. now rewrite String.eqb_refl.
Qed.

(** ... and every other key reads as before. *)
Lemma obj_get_set_other k k' v o :
  k' <> k -> obj_get k' (obj_set k v o) = obj_get k' o.
Proof.
  intros Hne. unfold obj_set. destruct (obj_has k o).
  - now apply obj_get_update_other.
  - unfold obj_define. destruct (array_index k).
    + now apply obj_get_insert_index_other.
    + rewrite obj_get_app. destruct (obj_get k' o); [reflexivity|].
      simpl. apply not_eq_sym, String.eqb_neq in Hne. now rewrite Hne.
Qed.

Lemma NoDup_keys_insert_index n k v o :
  ~ In k (Object_keys o) -> NoDup (Object_keys o) ->
  NoDup (Object_keys (insert_index n k v o)).
Proof.
  induction o as [|[k' v'] o IH]; simpl; intros Hk Hnd.
  - constructor; [tauto | constructor].
  - inversion Hnd as [|? ? Hk' Hnd']; subst.
    assert (Hcons : NoDup (k :: k' :: Object_keys o)).
    { constructor; [simpl; tauto | assumption]. }
    destruct (array_index k') as [m|]; [destruct (m <? n)%N|]; simpl;
      try exact Hcons.
    constructor.
    + rewrite keys_insert_index. intros [E|E]; [|tauto].
      apply Hk. now left.
    + apply IH; tauto.
Qed.

(** Assignment never duplicates a key. *)
Lemma NoDup_keys_obj_set k v o :
  NoDup (Object_keys o) -> NoDup (Object_keys (obj_set k v o)).
Proof.
  intros Hnd. unfold obj_set. destruct (obj_has k o) eqn:E.
  - now rewrite keys_obj_update.
  - apply obj_has_false_keys in E. unfold obj_define.
    destruct (array_index k).
    + now apply NoDup_keys_insert_index.
    + rewrite keys_app. simpl. apply NoDup_app; repeat split; auto.
      * constructor; [tauto | constructor].
      * intros x Hx [<-|[]]. tauto.
Qed.

Lemma insert_index_at_end n k v o :
  forallb (fun k' => match array_index k' with
                     | Some m => (m <? n)%N
                     | None => false
                     end) (Object_keys o) = true ->
  insert_index n k v o = (o ++ [(k, v)])%list.
Proof.
  induction o as [|[k' v'] o IH]; simpl; [reflexivity|].
  intros H. apply andb_true_iff in H as [H1 H2].
  destruct (array_index k') as [m|]; [|discriminate].
  rewrite H1, IH; auto.
Qed.

Lemma existsb_eqb_In k (ks : list string) :
  existsb (String.eqb k) ks = true <-> In k ks.
Proof.
  rewrite existsb_exists. split.
  - intros (x & Hx & E). apply String.eqb_eq in E. now subst.
  - intros H. exists k. split; [assumption | apply String.eqb_refl].
Qed.

Lemma comes_after_fresh k (ks : list string) :
  comes_after k ks = true -> ~ In k ks.
Proof.
  unfold comes_after. rewrite forallb_forall. intros H Hin.
  specialize (H k Hin). unfold precedes in H.
  now rewrite String.eqb_refl in H.
Qed.

(** A key that comes after all the keys of [o] is created at the end. *)
Lemma obj_set_at_end k v o :
  comes_after k (Object_keys o) = true ->
  obj_set k v o = (o ++ [(k, v)])%list.
Proof.
  intros H. pose proof (comes_after_fresh _ _ H) as Hfresh.
  apply obj_has_false_keys in Hfresh.
  unfold obj_set. rewrite Hfresh. unfold obj_define.
  destruct (array_index k) as [n|] eqn:Hk; [|reflexivity].
  apply insert_index_at_end. apply forallb_forall. intros k' Hk'.
  unfold comes_after in H. rewrite forallb_forall in H.
  specialize (H k' Hk'). unfold precedes in H. rewrite Hk in H.
  now apply andb_true_iff in H.
Qed.

End ObjectFacts.

Lemma enumerated_from_NoDup (ks before : list string) :
  enumerated_from before ks = true ->
  NoDup ks /\ forall x, In x ks -> ~ In x before.
Proof.
  revert before. induction ks as [|k ks IH]; simpl; intros before H.
  - split; [constructor | tauto].
  - apply andb_true_iff in H as [Hk Hrest].
    apply comes_after_fresh in Hk.
    destruct (IH _ Hrest) as [Hnd Hdisj]. split.
    + constructor; [|assumption].
      intros Hin. apply (Hdisj k Hin). apply in_or_app. right. now left.
    + intros x [<-|Hx]; [assumption|].
      intros Hb. apply (Hdisj x Hx). apply in_or_app. now left.
Qed.

Lemma is_object_NoDup {V} (o : object V) :
  is_object o = true -> NoDup (Object_keys o).
Proof. intros H. now apply enumerated_from_NoDup in H. Qed.

(** In an object, an entry is what reading its key gives. *)
Lemma obj_get_In {V} (o : object V) k v :
  NoDup (Object_keys o) -> In (k, v) o -> obj_get k o = Some v.
Proof.
  induction o as [|[k' v'] o IH]; simpl; [tauto|].
  intros Hnd [E|Hin].
  - inversion E; subst. now rewrite String.eqb_refl.
  - inversion Hnd as [|? ? Hk' Hnd']; subst.
    destruct (String.eqb_spec k' k) as [->|Hne]; [|auto].
    exfalso. apply Hk'. change k with (fst (k, v)).
    now apply in_map.
Qed.

(** ** Array-index keys and the enumeration order *)

Lemma digit_of_bound c d : digit_of c = Some d -> (d < 10)%N.
Proof.
  unfold digit_of.
  destruct ((48 <=? N_of_ascii c)%N && (N_of_ascii c <=? 57)%N) eqn:E;
    [|discriminate].
  apply andb_true_iff in E as [E1 E2].
  apply N.leb_le in E1, E2. intros H. inversion H. lia.
Qed.

Lemma digit_of_inj c1 c2 d :
  digit_of c1 = Some d -> digit_of c2 = Some d -> c1 = c2.
Proof.
  unfold digit_of.
  destruct ((48 <=? N_of_ascii c1)%N && (N_of_ascii c1 <=? 57)%N) eqn:E1;
    [|discriminate].
  destruct ((48 <=? N_of_ascii c2)%N && (N_of_ascii c2 <=? 57)%N) eqn:E2;
    [|discriminate].
  apply andb_true_iff in E1 as [A1 _], E2 as [A2 _].
  apply N.leb_le in A1, A2. intros H1 H2. inversion H1. inversion H2.
  assert (E : N_of_ascii c1 = N_of_ascii c2) by lia.
  rewrite <- (ascii_N_embedding c1), <- (ascii_N_embedding c2).
  now rewrite E.
Qed.

Lemma parse_digits_bounds s : forall acc v,
  parse_digits acc s = Some v ->
  (acc * 10 ^ N.of_nat (String.length s) <= v
   < (acc + 1) * 10 ^ N.of_nat (String.length s))%N.
Proof.
  induction s as [|c s IH]; intros acc v; cbn [parse_digits String.length].
  - intros H. inversion H. simpl. lia.
  - destruct (digit_of c) as [d|] eqn:Hd; [|discriminate].
    intros H. apply IH in H. apply digit_of_bound in Hd.
    rewrite Nat2N.inj_succ, N.pow_succ_r'.
    assert (0 < 10 ^ N.of_nat (String.length s))%N
      by (apply N.neq_0_lt_0, N.pow_nonzero; lia).
    nia.
Qed.

Lemma parse_digits_inj s1 : forall s2 a1 a2 v,
  String.length s1 = String.length s2 ->
  parse_digits a1 s1 = Some v ->
  parse_digits a2 s2 = Some v ->
  a1 = a2 /\ s1 = s2.
Proof.
  induction s1 as [|c1 s1 IH]; intros [|c2 s2] a1 a2 v;
    cbn [parse_digits String.length]; try discriminate.
  - intros _ H1 H2. split; [congruence | reflexivity].
  - intros Hlen. destruct (digit_of c1) as [d1|] eqn:D1; [|discriminate].
    destruct (digit_of c2) as [d2|] eqn:D2; [|discriminate].
    intros H1 H2.
    destruct (IH s2 _ _ v (eq_add_S _ _ Hlen) H1 H2) as [Ha ->].
    pose proof (digit_of_bound _ _ D1). pose proof (digit_of_bound _ _ D2).
    assert (a1 = a2) by lia. assert (d1 = d2) by lia. subst.
    split; [reflexivity|]. f_equal. eapply digit_of_inj; eauto.
Qed.

(** What [array_index] accepts: ["0"], or digits that start with a digit
    other than [0]. *)
Lemma array_index_shape k n :
  array_index k = Some n ->
  (k = "0" /\ n = 0%N)
  \/ exists c rest d,
       k = String c rest /\ digit_of c = Some d /\ (1 <= d)%N
       /\ parse_digits d rest = Some n.
Proof.
  destruct k as [|c rest]; [discriminate|]. unfold array_index.
  destruct (Ascii.eqb_spec c "0") as [->|Hc]; simpl.
  - destruct (String.eqb_spec rest "") as [->|Hr]; simpl.
    + intros H. inversion H. now left.
    + discriminate.
  - destruct (digit_of c) as [d|] eqn:Hd; [|discriminate].
    destruct (parse_digits d rest) as [v|] eqn:Hp; [|discriminate].
    destruct (v <? 4294967295)%N; [|discriminate].
    intros H. inversion H; subst. right. exists c, rest, d.
    repeat split; auto.
    destruct (N.eq_dec d 0) as [->|]; [|lia].
    exfalso. apply Hc. apply (digit_of_inj c "0"%char 0); auto.
Qed.

(** Two keys that are the same array index are the same key. *)
Lemma array_index_inj k1 k2 n :
  array_index k1 = Some n -> array_index k2 = Some n -> k1 = k2.
Proof.
  intros H1 H2.
  destruct (array_index_shape _ _ H1) as [[-> ->]|(c1 & r1 & d1 & -> & D1 & L1 & P1)];
    destruct (array_index_shape _ _ H2) as [[-> E]|(c2 & r2 & d2 & -> & D2 & L2 & P2)].
  - reflexivity.
  - apply parse_digits_bounds in P2.
    assert (0 < 10 ^ N.of_nat (String.length r2))%N
      by (apply N.neq_0_lt_0, N.pow_nonzero; lia).
    nia.
  - subst. apply parse_digits_bounds in P1.
    assert (0 < 10 ^ N.of_nat (String.length r1))%N
      by (apply N.neq_0_lt_0, N.pow_nonzero; lia).
    nia.
  - pose proof (parse_digits_bounds _ _ _ P1) as B1.
    pose proof (parse_digits_bounds _ _ _ P2) as B2.
    pose proof (digit_of_bound _ _ D1). pose proof (digit_of_bound _ _ D2).
    assert (Hlen : String.length r1 = String.length r2).
    { destruct (Nat.lt_trichotomy (String.length r1) (String.length r2))
        as [Hlt|[Heq|Hgt]]; [exfalso | exact Heq | exfalso].
      - assert (10 * 10 ^ N.of_nat (String.length r1)
                <= 10 ^ N.of_nat (String.length r2))%N.
        { rewrite <- N.pow_succ_r'. apply N.pow_le_mono_r; lia. }
        nia.
      - assert (10 * 10 ^ N.of_nat (String.length r2)
                <= 10 ^ N.of_nat (String.length r1))%N.
        { rewrite <- N.pow_succ_r'. apply N.pow_le_mono_r; lia. }
        nia. }
    destruct (parse_digits_inj _ _ _ _ _ Hlen P1 P2) as [-> ->].
    f_equal. eapply digit_of_inj; eauto.
Qed.

(** [enumerated_from] spelled out: every key stays ahead of all the later
    ones. *)
Lemma enumerated_from_spec ks : forall before,
  enumerated_from before ks = true
  <-> (forall b x, In b before -> In x ks -> precedes b x = true)
      /\ ForallOrdPairs ahead ks.
Proof.
  induction ks as [|k ks IH]; intros before; simpl.
  - split; [intros _; split; [tauto | constructor] | reflexivity].
  - rewrite andb_true_iff, IH. unfold comes_after. rewrite forallb_forall.
    split.
    + intros (Hk & Hb & Hs). split.
      * intros b x Hin [<-|Hx]; [now apply Hk|].
        apply Hb; [apply in_or_app; now left | assumption].
      * constructor; [|assumption].
        apply Forall_forall. intros x Hx. apply Hb; [|assumption].
        apply in_or_app. right. now left.
    + intros [Hb Hs]. inversion Hs as [|? ? Hk Hs']; subst.
      rewrite Forall_forall in Hk. repeat split.
      * intros b Hin. apply Hb; auto.
      * intros b x Hin Hx. apply in_app_or in Hin as [Hin|[<-|[]]].
        -- apply Hb; auto.
        -- now apply Hk.
      * assumption.
Qed.

Lemma is_object_spec {V} (o : object V) :
  is_object o = true
  <-> ForallOrdPairs ahead (Object_keys o).
Proof.
  unfold is_object. rewrite enumerated_from_spec. simpl. tauto.
Qed.

Lemma precedes_spec k' k :
  precedes k' k = true
  <-> k' <> k
      /\ forall n, array_index k = Some n ->
                   exists m, array_index k' = Some m /\ (m < n)%N.
Proof.
  unfold precedes. rewrite andb_true_iff, negb_true_iff, String.eqb_neq.
  split; intros [Hne H]; (split; [exact Hne|]).
  - intros n Hn. rewrite Hn in H.
    destruct (array_index k') as [m|]; [|discriminate].
    exists m. split; [reflexivity | now apply N.ltb_lt].
  - destruct (array_index k) as [n|]; [|reflexivity].
    destruct (H n eq_refl) as (m & -> & Hlt). now apply N.ltb_lt.
Qed.

Lemma ForallOrdPairs_snoc {A} (R : A -> A -> Prop) l x :
  ForallOrdPairs R l -> Forall (fun a => R a x) l ->
  ForallOrdPairs R (l ++ [x]).
Proof.
  induction l as [|a l IH]; simpl; intros Hs Hx.
  - constructor; constructor.
  - inversion Hs; inversion Hx; subst. constructor; [|auto].
    apply Forall_app. split; [assumption | now constructor].
Qed.

Section EnumerationOrder.
Context {V : Type}.
Implicit Types (o : object V) (k : string) (v : V).

(** A new array index is put where the order wants it. *)
Lemma insert_index_ordered n k v o :
  array_index k = Some n ->
  ~ In k (Object_keys o) ->
  ForallOrdPairs ahead (Object_keys o) ->
  ForallOrdPairs ahead (Object_keys (insert_index n k v o)).
Proof.
  intros Hk. induction o as [|[k' v'] o IH]; cbn [insert_index];
    intros Hfresh Hs.
  - constructor; constructor.
  - cbn [Object_keys map fst] in Hs, Hfresh.
    inversion Hs as [|? ? Hk' Hs']; subst.
    assert (Hne : k <> k') by (intros ->; apply Hfresh; now left).
    assert (Hfresh' : ~ In k (Object_keys o))
      by (intros Hin; apply Hfresh; now right).
    rewrite Forall_forall in Hk'.
    destruct (array_index k') as [m|] eqn:Hm;
      [destruct (m <? n)%N eqn:Hlt|].
    + cbn [Object_keys map fst]. constructor; [|now apply IH].
      apply Forall_forall. intros x Hx.
      apply keys_insert_index in Hx as [->|Hx]; [|now apply Hk'].
      apply precedes_spec. split; [congruence|].
      intros n' Hn'. rewrite Hk in Hn'. inversion Hn'; subst.
      exists m. split; [assumption | now apply N.ltb_lt].
    + apply N.ltb_ge in Hlt.
      assert (n <> m).
      { intros ->. apply Hne. eapply array_index_inj; eauto. }
      cbn [Object_keys map fst]. constructor; [|assumption].
      constructor.
      * apply precedes_spec. split; [assumption|].
        intros j Hj. rewrite Hm in Hj. inversion Hj; subst.
        exists n. split; [assumption | lia].
      * apply Forall_forall. intros x Hx.
        apply precedes_spec. split; [intros ->; now apply Hfresh'|].
        intros j Hj. pose proof (Hk' x Hx) as Hkx.
        apply precedes_spec in Hkx as [_ Hkx].
        destruct (Hkx j Hj) as (m' & Hm' & Hlt').
        rewrite Hm in Hm'. inversion Hm'; subst.
        exists n. split; [assumption | lia].
    + cbn [Object_keys map fst]. constructor; [|assumption].
      constructor.
      * apply precedes_spec. split; [assumption|].
        intros j Hj. congruence.
      * apply Forall_forall. intros x Hx.
        apply precedes_spec. split; [intros ->; now apply Hfresh'|].
        intros j Hj. pose proof (Hk' x Hx) as Hkx.
        apply precedes_spec in Hkx as [_ Hkx].
        destruct (Hkx j Hj) as (m' & Hm' & _). congruence.
Qed.

(** Assignment keeps an object in enumeration order: whatever the
    sequence of assignments that built it, its entries are listed as
    [Object.entries] lists them. *)
Theorem obj_set_is_object k v o :
  is_object o = true -> is_object (obj_set k v o) = true.
Proof.
  rewrite !is_object_spec. intros Hs. unfold obj_set.
  destruct (obj_has k o) eqn:E.
  - now rewrite keys_obj_update.
  - apply obj_has_false_keys in E. unfold obj_define.
    destruct (array_index k) as [n|] eqn:Hk.
    + now apply insert_index_ordered.
    + rewrite keys_app. apply ForallOrdPairs_snoc; [assumption|].
      apply Forall_forall. intros x Hx.
      apply precedes_spec. split; [intros ->; now apply E|].
      intros n Hn. cbn [fst] in Hn. congruence.
Qed.

End EnumerationOrder.

(** ** Registries *)

Lemma is_registry_object (o : object string) :
  is_registry o = true -> is_object o = true.
Proof. unfold is_registry. intros H. now apply andb_true_iff in H. Qed.

Lemma is_registry_NoDup (o : object string) :
  is_registry o = true -> NoDup (Object_keys o).
Proof. intros H. now apply is_object_NoDup, is_registry_object. Qed.

Lemma is_registry_ordinary (o : object string) :
  is_registry o = true -> ~ In "__proto__" (Object_keys o).
Proof.
  unfold is_registry. intros H. apply andb_true_iff in H as [_ H].
  apply negb_true_iff in H. intros Hin.
  apply existsb_eqb_In in Hin. congruence.
Qed.

Lemma In_paths {V} (o : object V) k v : In (k, v) o -> In v (map snd o).
Proof. intros H. change v with (snd (k, v)). now apply in_map. Qed.

Lemma In_keys {V} (o : object V) k v : In (k, v) o -> In k (Object_keys o).
Proof. intros H. change k with (fst (k, v)). now apply in_map. Qed.

Lemma nth_error_keys {V} (o : object V) i k v :
  nth_error o i = Some (k, v) -> In k (Object_keys o).
Proof. intros H. apply nth_error_In in H. eapply In_keys; eauto. Qed.

(** ** Assignment into the accumulator *)

Lemma assign_ordinary k v o :
  k <> "__proto__" -> assign k v o = obj_set k v o.
Proof. unfold assign. intros H. apply String.eqb_neq in H. now rewrite H. Qed.

Lemma obj_get_assign_other k k' v o :
  k' <> k -> obj_get k' (assign k v o) = obj_get k' o.
Proof.
  intros H. unfold assign. destruct (String.eqb k "__proto__");
    [reflexivity | now apply obj_get_set_other].
Qed.

Lemma NoDup_keys_assign k v o :
  NoDup (Object_keys o) -> NoDup (Object_keys (assign k v o)).
Proof.
  intros H. unfold assign. destruct (String.eqb k "__proto__");
    [assumption | now apply NoDup_keys_obj_set].
Qed.

Lemma all_numbers_assign k t o :
  all_numbers o -> all_numbers (assign k (VNumber t) o).
Proof.
  intros H. unfold assign. destruct (String.eqb k "__proto__"); [exact H|].
  intros k' v'. destruct (string_dec k' k) as [->|Hne].
  - rewrite obj_get_set_same. intros E. inversion E. eauto.
  - rewrite obj_get_set_other by assumption. apply H.
Qed.

(** ** One run of the callback *)

Lemma callback_run acc key path w :
  callback acc (key, path) w
  = (match bust_of w path with
     | Return v => Return (assign key v acc)
     | Throw e => Throw e
     end, after_entry w path).
Proof.
  unfold callback, bind, Date_now, process_env_ELEVENTY_ENV, md5File_sync,
    bust_of, after_entry, entry_events, build_mode, emit, ret; simpl.
  destruct (is_production (ELEVENTY_ENV w)); simpl.
  - unfold disk, read_error; simpl.
    destruct (fs w path); simpl; rewrite <- app_assoc; reflexivity.
  - reflexivity.
Qed.

Lemma reduce_cons key path l acc w :
  reduce callback ((key, path) :: l) acc w
  = match bust_of w path with
    | Return v => reduce callback l (assign key v acc) (after_entry w path)
    | Throw e => (Throw e, after_entry w path)
    end.
Proof.
  cbn [reduce]. unfold bind at 1. rewrite callback_run.
  destruct (bust_of w path); reflexivity.
Qed.

Lemma build_mode_after_entry w p : build_mode (after_entry w p) = build_mode w.
Proof. reflexivity. Qed.

Lemma processed_after_entry w p ps :
  processed (after_entry w p) ps = processed w ps.
Proof. reflexivity. Qed.

Lemma bust_of_production w p :
  build_mode w = Production ->
  bust_of w p = match disk w p with
                | Some bytes => Return (VString (MD5.hex bytes))
                | None => Throw (read_error w p)
                end.
Proof. unfold bust_of. now intros ->. Qed.

Lemma bust_of_development w p :
  build_mode w = Development ->
  bust_of w p = Return (VNumber (clock w (samples w))).
Proof. unfold bust_of. now intros ->. Qed.

(** ** The whole reduction *)

Lemma first_unreadable_None d ps :
  first_unreadable d ps = None <-> forall p, In p ps -> d p <> None.
Proof.
  induction ps as [|p ps IH]; simpl.
  - split; [intros _ p [] | reflexivity].
  - destruct (d p) eqn:E.
    + rewrite IH. split.
      * intros H q [<-|Hq]; [congruence | auto].
      * intros H q Hq. apply H. now right.
    + split; [discriminate|]. intros H. exfalso. apply (H p); auto.
Qed.

Lemma first_unreadable_Some d ps p :
  first_unreadable d ps = Some p -> In p ps /\ d p = None.
Proof.
  induction ps as [|q ps IH]; simpl; [discriminate|].
  destruct (d q) eqn:E.
  - intros H. destruct (IH H). auto.
  - intros H. inversion H; subst. auto.
Qed.

Lemma attempted_all d ps :
  first_unreadable d ps = None -> attempted d ps = ps.
Proof.
  induction ps as [|p ps IH]; simpl; [reflexivity|].
  destruct (d p); [|discriminate]. intros H. now rewrite IH.
Qed.

(** The environment, the disk and the clock are left as they were. *)
Lemma reduce_frame l : forall acc w,
  let w' := snd (reduce callback l acc w) in
  ELEVENTY_ENV w' = ELEVENTY_ENV w /\ fs w' = fs w /\ clock w' = clock w.
Proof.
  induction l as [|[k p] l IH]; intros acc w; [simpl; auto|].
  cbv zeta. rewrite reduce_cons. destruct (bust_of w p) as [v|e].
  - apply (IH (assign k v acc) (after_entry w p)).
  - simpl; auto.
Qed.

(** The reduction throws only in a production build, and then the error of
    the first registry file that cannot be read. *)
Lemma reduce_outcome l : forall acc w,
  match fst (reduce callback l acc w) with
  | Return _ =>
      build_mode w = Production -> first_unreadable (disk w) (map snd l) = None
  | Throw e =>
      build_mode w = Production /\
      exists p, first_unreadable (disk w) (map snd l) = Some p
                /\ e = read_error w p
  end.
Proof.
  induction l as [|[k p] l IH]; intros acc w; [simpl; auto|].
  rewrite reduce_cons. destruct (build_mode w) eqn:Hm.
  - rewrite (bust_of_production _ _ Hm). simpl.
    destruct (disk w p) as [b|] eqn:Hd.
    + specialize (IH (assign k (VString (MD5.hex b)) acc) (after_entry w p)).
      rewrite build_mode_after_entry, Hm in IH. exact IH.
    + simpl. split; [reflexivity|]. now exists p.
  - rewrite (bust_of_development _ _ Hm).
    specialize (IH (assign k (VNumber (clock w (samples w))) acc)
                   (after_entry w p)).
    rewrite build_mode_after_entry, Hm in IH.
    destruct (fst (reduce callback l _ (after_entry w p))).
    + discriminate.
    + destruct IH as [IH _]. discriminate.
Qed.

(** A development build always returns a table. *)
Lemma reduce_development_returns l acc w :
  build_mode w = Development ->
  exists table, fst (reduce callback l acc w) = Return table.
Proof.
  intros Hm. pose proof (reduce_outcome l acc w) as H.
  destruct (fst (reduce callback l acc w)) as [t|e]; [now exists t|].
  destruct H as [H _]. congruence.
Qed.

(** A production build returns a table when every file can be read. *)
Lemma reduce_production_returns l acc w :
  (forall p, In p (map snd l) -> disk w p <> None) ->
  exists table, fst (reduce callback l acc w) = Return table.
Proof.
  intros Hall. pose proof (reduce_outcome l acc w) as H.
  destruct (fst (reduce callback l acc w)) as [t|e]; [now exists t|].
  destruct H as (_ & p & Hp & _).
  apply first_unreadable_Some in Hp as [Hin Hd].
  exfalso. now apply (Hall p).
Qed.

(** The table never holds a key twice. *)
Lemma reduce_NoDup l : forall acc w table,
  fst (reduce callback l acc w) = Return table ->
  NoDup (Object_keys acc) -> NoDup (Object_keys table).
Proof.
  induction l as [|[k p] l IH]; intros acc w table.
  - simpl. intros H. now inversion H.
  - rewrite reduce_cons. destruct (bust_of w p) as [v|e]; [|discriminate].
    intros H Hacc. apply (IH _ _ _ H). now apply NoDup_keys_assign.
Qed.

Lemma assign_is_object k v o :
  is_object o = true -> is_object (assign k v o) = true.
Proof.
  intros H. unfold assign. destruct (String.eqb k "__proto__");
    [assumption | now apply obj_set_is_object].
Qed.

(** The table is an object in enumeration order. *)
Lemma reduce_is_object l : forall acc w table,
  fst (reduce callback l acc w) = Return table ->
  is_object acc = true -> is_object table = true.
Proof.
  induction l as [|[k p] l IH]; intros acc w table.
  - simpl. intros H. now inversion H.
  - rewrite reduce_cons. destruct (bust_of w p) as [v|e]; [|discriminate].
    intros H Hacc. apply (IH _ _ _ H). now apply assign_is_object.
Qed.

(** The keys of the table are those of the accumulator and of the entries;
    they stand in the order of the entries when these are in enumeration
    order. *)
Lemma reduce_keys l : forall acc w table,
  ~ In "__proto__" (map fst l) ->
  fst (reduce callback l acc w) = Return table ->
  (forall x, In x (Object_keys table)
             <-> In x (Object_keys acc) \/ In x (map fst l))
  /\ (enumerated_from (Object_keys acc) (map fst l) = true ->
      Object_keys table = (Object_keys acc ++ map fst l)%list).
Proof.
  induction l as [|[k p] l IH]; intros acc w table Hord.
  - simpl. intros H. inversion H; subst. split; [tauto|].
    intros _. now rewrite app_nil_r.
  - rewrite reduce_cons. destruct (bust_of w p) as [v|e]; [|discriminate].
    simpl in Hord. rewrite assign_ordinary by tauto.
    intros H. destruct (IH _ _ _ (fun E => Hord (or_intror E)) H)
      as (Hin & Hen).
    split.
    + intros x. rewrite Hin, keys_obj_set. simpl. intuition auto.
    + simpl. intros E. apply andb_true_iff in E as [Hk Hrest].
      rewrite (obj_set_at_end _ v _ Hk), keys_app in Hen. simpl in Hen.
      rewrite Hen by exact Hrest. now rewrite <- app_assoc.
Qed.

(** Entries under other keys leave a key's token alone. *)
Lemma reduce_preserves l : forall acc w table k,
  fst (reduce callback l acc w) = Return table ->
  ~ In k (map fst l) ->
  obj_get k table = obj_get k acc.
Proof.
  induction l as [|[k0 p0] l IH]; intros acc w table k.
  - simpl. intros H _. now inversion H.
  - rewrite reduce_cons. destruct (bust_of w p0) as [v|e]; [|discriminate].
    simpl. intros H Hk. rewrite (IH _ _ _ _ H) by tauto.
    apply obj_get_assign_other. intros ->. tauto.
Qed.

Lemma reduce_value_production l : forall acc w table k p bytes,
  build_mode w = Production ->
  fst (reduce callback l acc w) = Return table ->
  NoDup (map fst l) ->
  k <> "__proto__" ->
  In (k, p) l ->
  disk w p = Some bytes ->
  obj_get k table = Some (VString (MD5.hex bytes)).
Proof.
  induction l as [|[k0 p0] l IH]; intros acc w table k p bytes Hm;
    [simpl; tauto|].
  rewrite reduce_cons, (bust_of_production _ _ Hm).
  destruct (disk w p0) as [b0|] eqn:Hd0; [|discriminate].
  intros H Hnd Hk [E|Hin] Hd; inversion Hnd as [|? ? Hk0 Hnd']; subst.
  - inversion E; subst. rewrite (reduce_preserves _ _ _ _ _ H Hk0).
    rewrite assign_ordinary, obj_get_set_same by assumption. congruence.
  - eapply (IH _ (after_entry w p0) table k p bytes); eauto.
Qed.

Lemma reduce_value_development l : forall acc w table i k p,
  build_mode w = Development ->
  fst (reduce callback l acc w) = Return table ->
  NoDup (map fst l) ->
  k <> "__proto__" ->
  nth_error l i = Some (k, p) ->
  obj_get k table = Some (VNumber (clock w (samples w + i))).
Proof.
  induction l as [|[k0 p0] l IH]; intros acc w table i k p Hm;
    [destruct i; discriminate|].
  rewrite reduce_cons, (bust_of_development _ _ Hm).
  intros H Hnd Hk Hi. inversion Hnd as [|? ? Hk0 Hnd']; subst.
  destruct i as [|i]; simpl in Hi.
  - inversion Hi; subst. rewrite (reduce_preserves _ _ _ _ _ H Hk0).
    rewrite assign_ordinary, obj_get_set_same by assumption.
    now rewrite Nat.add_0_r.
  - erewrite (IH _ (after_entry w p0) table i k p); eauto.
    simpl. now rewrite Nat.add_succ_r.
Qed.

Lemma reduce_development_numbers l : forall acc w table,
  build_mode w = Development ->
  all_numbers acc ->
  fst (reduce callback l acc w) = Return table ->
  all_numbers table.
Proof.
  induction l as [|[k p] l IH]; intros acc w table Hm Hacc.
  - simpl. intros H. now inversion H; subst.
  - rewrite reduce_cons, (bust_of_development _ _ Hm).
    apply IH; [now rewrite build_mode_after_entry|].
    now apply all_numbers_assign.
Qed.

(** In production the outcome depends on the file system alone, and of the
    file system only on the registry files. *)
Lemma reduce_production_deterministic l : forall acc w1 w2,
  build_mode w1 = Production ->
  build_mode w2 = Production ->
  (forall p, In p (map snd l) -> fs w1 p = fs w2 p) ->
  fst (reduce callback l acc w1) = fst (reduce callback l acc w2).
Proof.
  induction l as [|[k p] l IH]; intros acc w1 w2 H1 H2 Hfs; [reflexivity|].
  rewrite !reduce_cons, (bust_of_production _ _ H1),
    (bust_of_production _ _ H2).
  unfold disk, read_error. rewrite <- (Hfs p) by (simpl; auto).
  destruct (fs w1 p); try reflexivity.
  apply IH; auto. intros q Hq. apply Hfs. simpl; auto.
Qed.

(** Whether a table is returned, and which, depends on the bytes of the
    readable registry files alone. *)
Lemma reduce_production_same_table l : forall acc w1 w2,
  build_mode w1 = Production ->
  build_mode w2 = Production ->
  (forall p, In p (map snd l) -> disk w1 p = disk w2 p) ->
  forall table,
    fst (reduce callback l acc w1) = Return table
    <-> fst (reduce callback l acc w2) = Return table.
Proof.
  induction l as [|[k p] l IH]; intros acc w1 w2 H1 H2 Hd table;
    [reflexivity|].
  rewrite !reduce_cons, (bust_of_production _ _ H1),
    (bust_of_production _ _ H2), <- (Hd p) by (simpl; auto).
  destruct (disk w1 p).
  - apply IH; auto. intros q Hq. apply Hd. simpl; auto.
  - simpl. split; discriminate.
Qed.

(** What the run adds to the trace, and how far it advances the clock. *)
Lemma reduce_trace l : forall acc w,
  let w' := snd (reduce callback l acc w) in
  let done := processed w (map snd l) in
  exists evs,
    trace w' = (trace w ++ evs)%list
    /\ reads evs = match build_mode w with
                   | Production => done
                   | Development => []
                   end
    /\ stamps evs = map (clock w) (seq (samples w) (List.length done))
    /\ samples w' = samples w + List.length done.
Proof.
  induction l as [|[k p] l IH]; intros acc w; cbv zeta.
  - exists []. unfold processed. simpl. rewrite app_nil_r.
    destruct (build_mode w); simpl; rewrite Nat.add_0_r; auto.
  - rewrite reduce_cons. destruct (build_mode w) eqn:Hm.
    + assert (Hev : entry_events w p
                    = [EvNow (clock w (samples w)); EvRead p])
        by (unfold entry_events; now rewrite Hm).
      rewrite (bust_of_production _ _ Hm). unfold processed. rewrite Hm.
      simpl. destruct (disk w p) as [b|] eqn:Hd.
      * destruct (IH (assign k (VString (MD5.hex b)) acc) (after_entry w p))
          as (evs & Ht & Hr & Hs & Hn).
        rewrite processed_after_entry, build_mode_after_entry in *.
        unfold processed in *. rewrite Hm in *.
        exists (entry_events w p ++ evs)%list. repeat split.
        -- rewrite Ht. cbn [after_entry trace]. now rewrite <- app_assoc.
        -- rewrite Hev. simpl. now rewrite Hr.
        -- rewrite Hev. simpl. now rewrite Hs.
        -- rewrite Hn. simpl. lia.
      * exists (entry_events w p). rewrite Hev. simpl.
        split; [now rewrite Hev|]. repeat split. lia.
    + assert (Hev : entry_events w p = [EvNow (clock w (samples w))])
        by (unfold entry_events; now rewrite Hm).
      rewrite (bust_of_development _ _ Hm). unfold processed. rewrite Hm.
      destruct (IH (assign k (VNumber (clock w (samples w))) acc)
                   (after_entry w p)) as (evs & Ht & Hr & Hs & Hn).
      rewrite processed_after_entry, build_mode_after_entry in *.
      unfold processed in *. rewrite Hm in *.
      exists (entry_events w p ++ evs)%list. repeat split.
      * rewrite Ht. cbn [after_entry trace]. now rewrite <- app_assoc.
      * rewrite Hev. simpl. now rewrite Hr.
      * rewrite Hev. simpl. now rewrite Hs.
      * rewrite Hn. simpl. lia.
Qed.

Lemma skipn_length_app {A} (l l' : list A) :
  skipn (List.length l) (l ++ l') = l'.
Proof. induction l; simpl; auto. Qed.

Lemma events_of_reduce l acc w :
  let done := processed w (map snd l) in
  reads (events_of (reduce callback l acc) w)
  = match build_mode w with Production => done | Development => [] end
  /\ stamps (events_of (reduce callback l acc) w)
     = map (clock w) (seq (samples w) (List.length done)).
Proof.
  cbv zeta. unfold events_of.
  destruct (reduce_trace l acc w) as (evs & Ht & Hr & Hs & _).
  rewrite Ht, skipn_length_app. auto.
Qed.

(** ** The cache-bust resolver *)

Example files_is_registry : is_registry files = true.
Proof. reflexivity. Qed.

(** The example of the specification: a registry of one entry. *)
Example single_entry_registry w bytes :
  build_mode w = Production ->
  disk w "file.css" = Some bytes ->
  fst (cacheBust_over [("a", "file.css")] w)
  = Return [("a", VString (MD5.hex bytes))].
Proof.
  intros Hm Hd. unfold cacheBust_over, Object_entries.
  rewrite reduce_cons, (bust_of_production _ _ Hm), Hd. reflexivity.
Qed.

Example cacheBust_compiled :
  fst (cacheBust prod_world) = Return compiled_table.
Proof. vm_compute. reflexivity. Qed.

(** An own property [__proto__] of the registry, which a literal cannot
    declare, would not make it into the table. *)
Example proto_key_is_not_assigned :
  fst (cacheBust_over [("__proto__", "a.css"); ("b", "b.css")] dev_world)
  = Return [("b", VNumber 1600000000001)].
Proof. vm_compute. reflexivity. Qed.

(** C1.  In a production build, an entry of the registry whose file can be
    read gets, under its key, the hexadecimal encoding of the MD5 digest of
    the bytes the file holds: that is what the returned table has for the
    key.  The resolver returns a table as soon as every registry file can
    be read, and otherwise throws the error of a registry file that
    cannot. *)
Theorem production_token_is_md5_hex :
  forall (registry : object string) (w : world) key path bytes,
    is_registry registry = true ->
    build_mode w = Production ->
    In (key, path) (Object_entries registry) ->
    disk w path = Some bytes ->
    match fst (cacheBust_over registry w) with
    | Return table => obj_get key table = Some (VString (MD5.hex bytes))
    | Throw e =>
        exists p,
          In p (paths registry) /\ disk w p = None /\ e = read_error w p
    end
    /\ ((forall p, In p (paths registry) -> disk w p <> None) ->
        exists table, fst (cacheBust_over registry w) = Return table).
Proof.
  intros registry w key path bytes Hreg Hm Hin Hd.
  unfold cacheBust_over, paths, Object_entries in *. split.
  - pose proof (reduce_outcome registry [] w) as Hout.
    destruct (fst (reduce callback registry [] w)) as [table|e] eqn:E.
    + eapply reduce_value_production; eauto.
      * now apply is_registry_NoDup.
      * intros ->. apply (is_registry_ordinary _ Hreg).
        eapply In_keys; eauto.
    + destruct Hout as (_ & p & Hp & ->).
      apply first_unreadable_Some in Hp as [Hp1 Hp2]. now exists p.
  - apply reduce_production_returns.
Qed.

Lemma production_token_is_md5_hex_witness :
  match fst (cacheBust_over files prod_world) with
  | Return table => obj_get "mainCss" table = Some (VString (MD5.hex main_css))
  | Throw e =>
      exists p,
        In p (paths files) /\ disk prod_world p = None
        /\ e = read_error prod_world p
  end
  /\ ((forall p, In p (paths files) -> disk prod_world p <> None) ->
      exists table, fst (cacheBust_over files prod_world) = Return table).
Proof.
  apply (production_token_is_md5_hex files prod_world "mainCss"
           "./src/compiled-assets/main.css" main_css).
  - reflexivity.
  - reflexivity.
  - simpl. auto.
  - reflexivity.
Defined.

(** C5 as written fails where a registry file exists but may not be read:
    the error that escapes is the one of the refused read, not the one for
    a file that does not exist. *)
Lemma not_found_on_failure_refuted :
  build_mode prod_world_denied = Production
  /\ fs prod_world_denied "./src/compiled-assets/main.css" = Denied
  /\ fst (cacheBust prod_world_denied)
     = Throw (EACCES "./src/compiled-assets/main.css")
  /\ ~ not_found_on_failure prod_world_denied.
Proof.
  repeat split; try (vm_compute; reflexivity).
  intros H. destruct H as [p Hp].
  - reflexivity.
  - exists "mainCss", "./src/compiled-assets/main.css".
    split; [simpl; auto | reflexivity].
  - vm_compute in Hp. discriminate.
Qed.

(** C5, amended.  In a production build, if the file of some registry entry
    cannot be read, the resolver throws the error raised for the first such
    file in registry order -- the one for a missing file when nothing is
    there, the file system's own error when the path is a file that may not
    be read or a directory -- nothing catches it, and no table, hence no
    timestamp token, is returned. *)
Theorem production_unreadable_file_throws :
  forall (registry : object string) (w : world),
    build_mode w = Production ->
    (exists key path,
        In (key, path) (Object_entries registry) /\ disk w path = None) ->
    exists p,
      first_unreadable (disk w) (paths registry) = Some p
      /\ In p (paths registry)
      /\ disk w p = None
      /\ fst (cacheBust_over registry w) = Throw (read_error w p)
      /\ match fs w p with
         | Missing => read_error w p = ENOENT p
         | Denied => read_error w p = EACCES p
         | Directory => read_error w p = EISDIR p
         | File _ => False
         end.
Proof.
  intros registry w Hm (key & path & Hin & Hd).
  unfold cacheBust_over, paths, Object_entries in *.
  pose proof (reduce_outcome registry [] w) as Hout.
  destruct (fst (reduce callback registry [] w)) as [table|e].
  - specialize (Hout Hm).
    rewrite first_unreadable_None in Hout.
    exfalso. apply (Hout path); [|assumption].
    eapply In_paths; eauto.
  - destruct Hout as (_ & p & Hp & ->).
    pose proof (first_unreadable_Some _ _ _ Hp) as [Hp1 Hp2].
    exists p. repeat split; auto.
    unfold disk in Hp2. unfold read_error.
    destruct (fs w p); [discriminate | reflexivity ..].
Qed.

Lemma production_unreadable_file_throws_witness :
  exists p,
    first_unreadable (disk prod_world_denied) (paths files) = Some p
    /\ In p (paths files)
    /\ disk prod_world_denied p = None
    /\ fst (cacheBust_over files prod_world_denied)
       = Throw (read_error prod_world_denied p)
    /\ match fs prod_world_denied p with
       | Missing => read_error prod_world_denied p = ENOENT p
       | Denied => read_error prod_world_denied p = EACCES p
       | Directory => read_error prod_world_denied p = EISDIR p
       | File _ => False
       end.
Proof.
  apply (production_unreadable_file_throws files prod_world_denied).
  - reflexivity.
  - exists "mainCss", "./src/compiled-assets/main.css".
    split; [simpl; auto | reflexivity].
Defined.

Example production_partial_outcome :
  fst (cacheBust prod_world_partial)
  = Throw (ENOENT "./src/compiled-assets/main.js").
Proof. vm_compute. reflexivity. Qed.

(** C6.  In a build that is not a production build the resolver returns a
    table whatever the disk holds -- no file of the registry need exist --
    in which every token is a number and every key of the registry carries
    one, a timestamp the run sampled. *)
Theorem development_returns_numbers :
  forall (registry : object string) (w : world),
    is_registry registry = true ->
    build_mode w = Development ->
    exists table,
      fst (cacheBust_over registry w) = Return table
      /\ all_numbers table
      /\ forall key,
           In key (Object_keys registry) ->
           exists i,
             i < List.length registry
             /\ obj_get key table = Some (VNumber (clock w (samples w + i))).
Proof.
  intros registry w Hreg Hm. unfold cacheBust_over, Object_entries.
  destruct (reduce_development_returns registry [] w Hm) as [table Ht].
  exists table. split; [assumption|]. split.
  { eapply reduce_development_numbers; eauto. intros k v. discriminate. }
  intros key Hkey.
  apply in_map_iff in Hkey as ([k p] & <- & Hin).
  destruct (In_nth_error _ _ Hin) as [i Hi].
  exists i. split.
  - apply nth_error_Some. congruence.
  - eapply reduce_value_development; eauto.
    + now apply is_registry_NoDup.
    + intros E. apply (is_registry_ordinary _ Hreg).
      simpl in E. rewrite <- E. eapply In_keys; eauto.
Qed.

Lemma development_returns_numbers_witness :
  exists table,
    fst (cacheBust_over files dev_world) = Return table
    /\ all_numbers table
    /\ forall key,
         In key (Object_keys files) ->
         exists i,
           i < List.length files
           /\ obj_get key table
              = Some (VNumber (clock dev_world (samples dev_world + i))).
Proof.
  apply (development_returns_numbers files dev_world); reflexivity.
Defined.

(** Without any compiled asset on disk, a development build still gives
    every key its number. *)
Example development_without_assets :
  fst (cacheBust dev_world) = Return ticking_table.
Proof. vm_compute. reflexivity. Qed.

(** C7.  Whatever the build mode, a table the resolver returns has exactly
    the keys of the registry, each of them once.  (It returns one in every
    development build; a production build that does not has met a registry
    file it cannot read.) *)
Theorem table_keys_are_registry_keys :
  forall (registry : object string) (w : world),
    is_registry registry = true ->
    match fst (cacheBust_over registry w) with
    | Return table =>
        (forall k, In k (Object_keys table) <-> In k (Object_keys registry))
        /\ NoDup (Object_keys table)
    | Throw e =>
        build_mode w = Production
        /\ exists p,
             In p (paths registry) /\ disk w p = None /\ e = read_error w p
    end.
Proof.
  intros registry w Hreg. unfold cacheBust_over, paths, Object_entries.
  pose proof (reduce_outcome registry [] w) as Hout.
  destruct (fst (reduce callback registry [] w)) as [table|e] eqn:E.
  - split.
    + destruct (reduce_keys _ _ _ _ (is_registry_ordinary _ Hreg) E)
        as [Hin _].
      intros k. rewrite Hin. simpl. unfold Object_keys. tauto.
    + apply (reduce_NoDup _ _ _ _ E). constructor.
  - destruct Hout as (Hm & p & Hp & ->). split; [assumption|].
    apply first_unreadable_Some in Hp as [Hp1 Hp2]. now exists p.
Qed.

Lemma table_keys_are_registry_keys_witness :
  match fst (cacheBust_over files unset_world) with
  | Return table =>
      (forall k, In k (Object_keys table) <-> In k (Object_keys files))
      /\ NoDup (Object_keys table)
  | Throw e =>
      build_mode unset_world = Production
      /\ exists p, In p (paths files) /\ disk unset_world p = None
                   /\ e = read_error unset_world p
  end.
Proof.
  apply (table_keys_are_registry_keys files unset_world). reflexivity.
Defined.

(** The keys come out in the order of the registry. *)
Lemma cacheBust_over_keys_in_order (registry : object string) w table :
  is_registry registry = true ->
  fst (cacheBust_over registry w) = Return table ->
  Object_keys table = Object_keys registry.
Proof.
  intros Hreg H. unfold cacheBust_over, Object_entries in H.
  destruct (reduce_keys _ _ _ _ (is_registry_ordinary _ Hreg) H)
    as [_ Hord].
  apply Hord. now apply is_registry_object.
Qed.

(** C10.  Whatever the build mode, a table [cacheBust] returns enumerates
    its keys as the [files] literal declares them: [mainCss], [mainJs],
    [vendorJs]. *)
Theorem table_keys_in_declaration_order :
  forall w : world,
    match fst (cacheBust w) with
    | Return table => Object_keys table = ["mainCss"; "mainJs"; "vendorJs"]
    | Throw e =>
        build_mode w = Production
        /\ exists p,
             In p (paths files) /\ disk w p = None /\ e = read_error w p
    end.
Proof.
  intros w. unfold cacheBust, cacheBust_over, paths, Object_entries.
  pose proof (reduce_outcome files [] w) as Hout.
  destruct (fst (reduce callback files [] w)) as [table|e] eqn:E.
  - apply (cacheBust_over_keys_in_order files w table files_is_registry E).
  - destruct Hout as (Hm & p & Hp & ->). split; [assumption|].
    apply first_unreadable_Some in Hp as [Hp1 Hp2]. now exists p.
Qed.

(** C8.  In a production build the outcome of the resolver is a function of
    the registry files: two processes whose file systems agree on those files
    get the same outcome, whatever their clocks and histories, and when
    the bytes of the readable ones agree the same table is returned, or
    none; running the resolver again after it has run gives the same
    outcome; and two entries -- of one registry or of two, under any keys
    and paths -- whose files hold the same bytes carry the same token. *)
Theorem production_table_depends_on_bytes_only :
  (forall (registry : object string) (w1 w2 : world),
      build_mode w1 = Production ->
      build_mode w2 = Production ->
      ((forall p, In p (paths registry) -> fs w1 p = fs w2 p) ->
       fst (cacheBust_over registry w1) = fst (cacheBust_over registry w2))
      /\ ((forall p, In p (paths registry) -> disk w1 p = disk w2 p) ->
          forall table,
            fst (cacheBust_over registry w1) = Return table
            <-> fst (cacheBust_over registry w2) = Return table))
  /\ (forall (registry : object string) (w : world),
         build_mode w = Production ->
         fst (cacheBust_over registry (snd (cacheBust_over registry w)))
         = fst (cacheBust_over registry w))
  /\ (forall (r1 r2 : object string) (w1 w2 : world) t1 t2 k1 p1 k2 p2 bytes,
         is_registry r1 = true -> is_registry r2 = true ->
         build_mode w1 = Production -> build_mode w2 = Production ->
         fst (cacheBust_over r1 w1) = Return t1 ->
         fst (cacheBust_over r2 w2) = Return t2 ->
         In (k1, p1) (Object_entries r1) ->
         In (k2, p2) (Object_entries r2) ->
         disk w1 p1 = Some bytes -> disk w2 p2 = Some bytes ->
         obj_get k1 t1 = obj_get k2 t2).
Proof.
  unfold cacheBust_over, paths, Object_entries. split; [|split].
  - intros registry w1 w2 H1 H2. split.
    + now apply reduce_production_deterministic.
    + now apply reduce_production_same_table.
  - intros registry w Hm.
    destruct (reduce_frame registry [] w) as (He & Hfs & _).
    apply reduce_production_deterministic; auto.
    + unfold build_mode in *. now rewrite He.
    + intros p _. now rewrite Hfs.
  - intros r1 r2 w1 w2 t1 t2 k1 p1 k2 p2 bytes R1 R2 M1 M2 T1 T2 I1 I2 D1 D2.
    assert (K1 : k1 <> "__proto__").
    { intros ->. apply (is_registry_ordinary _ R1). eapply In_keys; eauto. }
    assert (K2 : k2 <> "__proto__").
    { intros ->. apply (is_registry_ordinary _ R2). eapply In_keys; eauto. }
    rewrite (reduce_value_production r1 [] w1 t1 k1 p1 bytes
               M1 T1 (is_registry_NoDup _ R1) K1 I1 D1),
            (reduce_value_production r2 [] w2 t2 k2 p2 bytes
               M2 T2 (is_registry_NoDup _ R2) K2 I2 D2).
    reflexivity.
Qed.

Lemma production_table_depends_on_bytes_only_witness :
  fst (cacheBust_over files prod_world)
  = fst (cacheBust_over files prod_world_later)
  /\ (fst (cacheBust_over files prod_world) = Return compiled_table
      <-> fst (cacheBust_over files prod_world_later) = Return compiled_table)
  /\ fst (cacheBust_over files (snd (cacheBust_over files prod_world)))
     = fst (cacheBust_over files prod_world)
  /\ obj_get "mainJs" compiled_table = obj_get "vendorJs" compiled_table.
Proof.
  destruct production_table_depends_on_bytes_only as (H1 & H2 & H3).
  destruct (H1 files prod_world prod_world_later eq_refl eq_refl)
    as [H1a H1b].
  split; [|split; [|split]].
  - apply H1a. reflexivity.
  - apply H1b. reflexivity.
  - apply (H2 files prod_world); reflexivity.
  - apply (H3 files files prod_world prod_world_later
              compiled_table compiled_table
              "mainJs" "./src/compiled-assets/main.js"
              "vendorJs" "./src/compiled-assets/vendor.js" main_js);
      try reflexivity; try (vm_compute; reflexivity); simpl; auto.
Defined.

(** C9.  The resolver leaves the file system as it found it, in every build
    mode.  In a build that is not a production build it opens no file.  In a
    production build it opens the registry files one after the other, each
    once, in registry order, up to the first that cannot be read; so a
    production run that returns a table has read every registry file
    exactly once. *)
Theorem resolver_file_effects :
  forall (registry : object string) (w : world),
    fs (snd (cacheBust_over registry w)) = fs w
    /\ reads (events_of (cacheBust_over registry) w)
       = match build_mode w with
         | Production => attempted (disk w) (paths registry)
         | Development => []
         end
    /\ (build_mode w = Production ->
        forall table,
          fst (cacheBust_over registry w) = Return table ->
          reads (events_of (cacheBust_over registry) w) = paths registry).
Proof.
  intros registry w. unfold cacheBust_over, paths, Object_entries.
  destruct (reduce_frame registry [] w) as (_ & Hd & _).
  destruct (events_of_reduce registry [] w) as [Hr _].
  assert (Hr' : reads (events_of (reduce callback registry []) w)
                = match build_mode w with
                  | Production => attempted (disk w) (map snd registry)
                  | Development => []
                  end).
  { rewrite Hr. unfold processed. now destruct (build_mode w). }
  repeat split; [assumption | assumption |].
  intros Hm table Ht. rewrite Hr', Hm. apply attempted_all.
  pose proof (reduce_outcome registry [] w) as Hout.
  rewrite Ht in Hout. auto.
Qed.

Lemma resolver_file_effects_witness :
  fs (snd (cacheBust_over files prod_world)) = fs prod_world
  /\ reads (events_of (cacheBust_over files) prod_world)
     = match build_mode prod_world with
       | Production => attempted (disk prod_world) (paths files)
       | Development => []
       end
  /\ (build_mode prod_world = Production ->
      forall table,
        fst (cacheBust_over files prod_world) = Return table ->
        reads (events_of (cacheBust_over files) prod_world) = paths files).
Proof. apply (resolver_file_effects files prod_world). Defined.

Example reads_of_production_run :
  reads (events_of cacheBust prod_world)
  = [ "./src/compiled-assets/main.css";
      "./src/compiled-assets/main.js";
      "./src/compiled-assets/vendor.js" ].
Proof. vm_compute. reflexivity. Qed.

Example reads_of_failing_run :
  reads (events_of cacheBust prod_world_partial)
  = [ "./src/compiled-assets/main.css"; "./src/compiled-assets/main.js" ].
Proof. vm_compute. reflexivity. Qed.

Example reads_of_development_run :
  reads (events_of cacheBust unset_world) = [].
Proof. vm_compute. reflexivity. Qed.

(** C2 as written fails where the clock ticks during the run: three
    samples are taken and the three tokens differ. *)
Lemma shared_timestamp_refuted :
  build_mode dev_world = Development
  /\ fst (cacheBust dev_world) = Return ticking_table
  /\ stamps (events_of cacheBust dev_world)
     = [1600000000000; 1600000000001; 1600000000002]%Z
  /\ ~ shared_timestamp dev_world.
Proof.
  repeat split; try (vm_compute; reflexivity).
  intros H. destruct (H eq_refl) as [Hs _].
  vm_compute in Hs. discriminate.
Qed.

(** C2, amended.  In a build that is not a production build the resolver
    samples the clock once for every registry entry, inside the callback,
    and the token of an entry is the sample taken when that entry is
    processed: the [i]-th entry carries the [i]-th sample of the run.  Two
    entries carry the same token exactly when the clock gave the same value
    for their two samples. *)
Theorem development_samples_clock_per_entry :
  forall (registry : object string) (w : world),
    is_registry registry = true ->
    build_mode w = Development ->
    stamps (events_of (cacheBust_over registry) w)
    = map (clock w) (seq (samples w) (List.length registry))
    /\ exists table,
        fst (cacheBust_over registry w) = Return table
        /\ (forall i key path,
               nth_error (Object_entries registry) i = Some (key, path) ->
               obj_get key table = Some (VNumber (clock w (samples w + i))))
        /\ (forall i j ki pi kj pj,
               nth_error (Object_entries registry) i = Some (ki, pi) ->
               nth_error (Object_entries registry) j = Some (kj, pj) ->
               (obj_get ki table = obj_get kj table
                <-> clock w (samples w + i) = clock w (samples w + j))).
Proof.
  intros registry w Hreg Hm. unfold cacheBust_over, Object_entries.
  split.
  - destruct (events_of_reduce registry [] w) as [_ Hs].
    rewrite Hs. unfold processed. rewrite Hm. now rewrite length_map.
  - destruct (reduce_development_returns registry [] w Hm) as [table Ht].
    exists table. split; [assumption|].
    assert (Hval : forall i key path,
               nth_error registry i = Some (key, path) ->
               obj_get key table = Some (VNumber (clock w (samples w + i)))).
    { intros i key path Hi.
      eapply reduce_value_development; eauto.
      - now apply is_registry_NoDup.
      - intros ->. apply (is_registry_ordinary _ Hreg).
        eapply nth_error_keys; eauto. }
    split; [exact Hval|].
    intros i j ki pi kj pj Hi Hj.
    rewrite (Hval _ _ _ Hi), (Hval _ _ _ Hj).
    split; intros E; [now inversion E | now rewrite E].
Qed.

Lemma development_samples_clock_per_entry_witness :
  stamps (events_of (cacheBust_over files) dev_world)
  = map (clock dev_world) (seq (samples dev_world) (List.length files))
  /\ exists table,
      fst (cacheBust_over files dev_world) = Return table
      /\ (forall i key path,
             nth_error (Object_entries files) i = Some (key, path) ->
             obj_get key table
             = Some (VNumber (clock dev_world (samples dev_world + i))))
      /\ (forall i j ki pi kj pj,
             nth_error (Object_entries files) i = Some (ki, pi) ->
             nth_error (Object_entries files) j = Some (kj, pj) ->
             (obj_get ki table = obj_get kj table
              <-> clock dev_world (samples dev_world + i)
                  = clock dev_world (samples dev_world + j))).
Proof.
  apply (development_samples_clock_per_entry files dev_world); reflexivity.
Defined.

(** ** The permalink template *)

Lemma take_app_length (pre s : string) :
  take (String.length pre) (pre ++ s) = pre.
Proof. induction pre as [|c pre IH]; simpl; [now destruct s | now rewrite IH]. Qed.

Lemma drop_app_length (pre s : string) :
  drop (String.length pre) (pre ++ s) = s.
Proof. induction pre as [|c pre IH]; simpl; auto. Qed.

Lemma drop_add n m : forall s, drop (n + m) s = drop m (drop n s).
Proof.
  induction n as [|n IH]; intros s; simpl; [reflexivity|].
  destruct s; [now destruct m | apply IH].
Qed.

Lemma append_empty_r (s : string) : s ++ "" = s.
Proof. induction s; simpl; congruence. Qed.

(** [replace] rewrites at the position [indexOf] finds, and nowhere when
    it finds none. *)
Lemma replace_indexOf pattern replacement s :
  replace pattern replacement s
  = match indexOf pattern s with
    | None => s
    | Some i =>
        take i s ++ replacement ++ drop (i + String.length pattern) s
    end.
Proof.
  induction s as [|c s IH]; cbn [replace indexOf].
  - destruct (String.prefix pattern ""); reflexivity.
  - destruct (String.prefix pattern (String c s)); [reflexivity|].
    rewrite IH. destruct (indexOf pattern s); reflexivity.
Qed.

(** A stem with no ["/index"] below the source root keeps that whole
    path. *)
Lemma permalink_without_index stem :
  indexOf "/index" (replace "/_pages" "" stem) = None ->
  permalink stem = replace "/_pages" "" stem ++ "/index.html".
Proof.
  intros H. unfold permalink.
  now rewrite (replace_indexOf "/index"), H.
Qed.

(** A trailing ["/index"] that is the first ["/index"] of the path is
    dropped, separator included. *)
Lemma permalink_trailing_index stem pre :
  replace "/_pages" "" stem = pre ++ "/index" ->
  indexOf "/index" (pre ++ "/index") = Some (String.length pre) ->
  permalink stem = pre ++ "/index.html".
Proof.
  intros Hrest Hidx. unfold permalink.
  rewrite Hrest, (replace_indexOf "/index"), Hidx.
  rewrite take_app_length, drop_add, drop_app_length. simpl.
  now rewrite append_empty_r.
Qed.

(** The five stems of the tutorial. *)
Example permalink_tutorial :
  map permalink
      [ "/_pages/index"; "/_pages/foo/index"; "/_pages/foo/bar";
        "/_pages/foo/baz/index"; "/_pages/foo/baz/qux" ]
  = [ "/index.html"; "/foo/index.html"; "/foo/bar/index.html";
      "/foo/baz/index.html"; "/foo/baz/qux/index.html" ].
Proof. reflexivity. Qed.

(** C4.  With ["/_pages"] as the source root, the stem of the root index
    page maps to ["/index.html"], that of [foo/bar] to
    ["/foo/bar/index.html"] and that of [foo/baz/index] to
    ["/foo/baz/index.html"]. *)
Theorem permalink_examples :
  permalink "/_pages/index" = "/index.html"
  /\ permalink "/_pages/foo/bar" = "/foo/bar/index.html"
  /\ permalink "/_pages/foo/baz/index" = "/foo/baz/index.html".
Proof. repeat split. Qed.

(** C3.  The template does not stop at a trailing ["/index"]: it removes
    the first ["/index"] it finds below the source root, wherever it is.
    A page [foo/indexing] and a page [index/foo] both lose it, although
    neither path ends in an [index] segment. *)
Theorem permalink_drops_inner_index :
  permalink "/_pages/foo/indexing" = "/fooing/index.html"
  /\ permalink "/_pages/index/foo" = "/foo/index.html"
  /\ ~ drops_only_trailing_index "/_pages/foo/indexing"
  /\ ~ drops_only_trailing_index "/_pages/index/foo".
Proof.
  repeat split; try reflexivity;
    intros H; specialize (H eq_refl); vm_compute in H; discriminate.
Qed.

(** * Further properties *)

(** ** Tokens of a production table *)

Lemma obj_get_assign_inv k k0 v v0 o :
  obj_get k (assign k0 v0 o) = Some v ->
  (k = k0 /\ v = v0) \/ obj_get k o = Some v.
Proof.
  unfold assign. destruct (String.eqb k0 "__proto__"); [now right|].
  destruct (string_dec k k0) as [->|Hne].
  - rewrite obj_get_set_same. intros E. inversion E. now left.
  - rewrite obj_get_set_other by assumption. now right.
Qed.

(** Every token of the table was computed from an entry of that key. *)
Lemma reduce_production_tokens l : forall (all : list (string * string)) acc w table,
  build_mode w = Production ->
  incl l all ->
  (forall k v, obj_get k acc = Some v ->
     exists p bytes, In (k, p) all /\ disk w p = Some bytes
                     /\ v = VString (MD5.hex bytes)) ->
  fst (reduce callback l acc w) = Return table ->
  forall k v, obj_get k table = Some v ->
    exists p bytes, In (k, p) all /\ disk w p = Some bytes
                    /\ v = VString (MD5.hex bytes).
Proof.
  induction l as [|[k0 p0] l IH]; intros all acc w table Hm Hincl Hacc.
  - simpl. intros H. inversion H; subst. exact Hacc.
  - rewrite reduce_cons, (bust_of_production _ _ Hm).
    destruct (disk w p0) as [b0|] eqn:Hd0; [|discriminate].
    apply (IH all _ (after_entry w p0)).
    + now rewrite build_mode_after_entry.
    + intros x Hx. apply Hincl. now right.
    + intros k v Hget.
      apply obj_get_assign_inv in Hget as [[-> ->]|Hget]; [|now apply Hacc].
      exists p0, b0. repeat split; [|exact Hd0]. apply Hincl. now left.
Qed.

Lemma reduce_returned_readable l acc w table p :
  build_mode w = Production ->
  fst (reduce callback l acc w) = Return table ->
  In p (map snd l) -> exists bytes, disk w p = Some bytes.
Proof.
  intros Hm Ht Hin. pose proof (reduce_outcome l acc w) as Hout.
  rewrite Ht in Hout. specialize (Hout Hm).
  rewrite first_unreadable_None in Hout.
  destruct (disk w p) as [b|] eqn:E; [now exists b|].
  exfalso. now apply (Hout p).
Qed.

(** X1.  In a production build no timestamp ever reaches the table: every
    token a returned table holds, under whatever key, is a string, the
    hexadecimal MD5 digest of the bytes of a file the registry lists under
    that key. *)
Theorem production_tokens_are_digests :
  forall (registry : object string) (w : world) table key v,
    build_mode w = Production ->
    fst (cacheBust_over registry w) = Return table ->
    obj_get key table = Some v ->
    exists path bytes,
      In (key, path) (Object_entries registry)
      /\ disk w path = Some bytes
      /\ v = VString (MD5.hex bytes).
Proof.
  intros registry w table key v Hm Ht Hget.
  unfold cacheBust_over, Object_entries in *.
  eapply (reduce_production_tokens registry registry [] w table); eauto.
  - apply incl_refl.
  - intros k v0. discriminate.
Qed.

Lemma production_tokens_are_digests_witness :
  exists path bytes,
    In ("mainJs", path) (Object_entries files)
    /\ disk prod_world path = Some bytes
    /\ VString "900150983cd24fb0d6963f7d28e17f72" = VString (MD5.hex bytes).
Proof.
  apply (production_tokens_are_digests files prod_world compiled_table
           "mainJs" (VString "900150983cd24fb0d6963f7d28e17f72")).
  - reflexivity.
  - vm_compute. reflexivity.
  - reflexivity.
Defined.

(** *** The shape of a digest *)

Lemma hex_digit_lower x :
  existsb (Ascii.eqb (MD5.hex_digit x))
          (list_ascii_of_string "0123456789abcdef") = true.
Proof.
  unfold MD5.hex_digit. generalize (Z.to_nat x). intros n.
  do 16 (destruct n as [|n]; [reflexivity|]). reflexivity.
Qed.

Lemma concat_empty_cons (x : string) xs :
  String.concat "" (x :: xs) = x ++ String.concat "" xs.
Proof.
  destruct xs; simpl; [now rewrite append_empty_r | reflexivity].
Qed.

Lemma length_append (s t : string) :
  String.length (s ++ t) = String.length s + String.length t.
Proof. induction s; simpl; auto. Qed.

Lemma list_ascii_append (s t : string) :
  list_ascii_of_string (s ++ t)
  = (list_ascii_of_string s ++ list_ascii_of_string t)%list.
Proof. induction s; simpl; congruence. Qed.

Lemma hex_bytes_shape (xs : list Z) :
  let s := String.concat "" (map MD5.hex_byte xs) in
  String.length s = 2 * List.length xs /\ is_lower_hex s = true.
Proof.
  induction xs as [|x xs [IHl IHc]]; [split; reflexivity|].
  cbv zeta. cbn [map]. rewrite concat_empty_cons. split.
  - rewrite length_append, IHl. cbn [MD5.hex_byte String.length List.length].
    lia.
  - unfold is_lower_hex in *. rewrite list_ascii_append, forallb_app, IHc.
    cbn [MD5.hex_byte list_ascii_of_string forallb].
    now rewrite !hex_digit_lower.
Qed.

Lemma le_bytes_length n x : List.length (MD5.le_bytes n x) = n.
Proof. unfold MD5.le_bytes. now rewrite length_map, length_seq. Qed.

(** A digest is rendered as thirty-two digits among [0-9a-f]. *)
Lemma md5_hex_shape (bytes : list byte) :
  String.length (MD5.hex bytes) = 32 /\ is_lower_hex (MD5.hex bytes) = true.
Proof.
  unfold MD5.hex. destruct (MD5.digest bytes) as [a b c d].
  destruct (hex_bytes_shape
              (MD5.le_bytes 4 a ++ MD5.le_bytes 4 b
               ++ MD5.le_bytes 4 c ++ MD5.le_bytes 4 d)%list) as [Hl Hc].
  split; [|exact Hc].
  rewrite Hl, !length_app, !le_bytes_length. reflexivity.
Qed.

(** X2.  Every token of a table returned by a production build is a string
    of exactly thirty-two characters, each of them one of [0-9a-f]: it can
    be appended to an asset URL as a query string as it is. *)
Theorem production_tokens_are_hex32 :
  forall (registry : object string) (w : world) table key v,
    build_mode w = Production ->
    fst (cacheBust_over registry w) = Return table ->
    obj_get key table = Some v ->
    exists s,
      v = VString s /\ String.length s = 32 /\ is_lower_hex s = true.
Proof.
  intros registry w table key v Hm Ht Hget.
  unfold cacheBust_over, Object_entries in *.
  destruct (reduce_production_tokens registry registry [] w table Hm
              (incl_refl _) (fun k v0 E => ltac:(discriminate)) Ht key v Hget)
    as (p & bytes & _ & _ & ->).
  exists (MD5.hex bytes). split; [reflexivity | apply md5_hex_shape].
Qed.

Lemma production_tokens_are_hex32_witness :
  exists s,
    VString "7411b9041dad72eeed20b4bced355941" = VString s
    /\ String.length s = 32 /\ is_lower_hex s = true.
Proof.
  apply (production_tokens_are_hex32 files prod_world compiled_table
           "mainCss" (VString "7411b9041dad72eeed20b4bced355941")).
  - reflexivity.
  - vm_compute. reflexivity.
  - reflexivity.
Defined.

(** X3.  In a production build the token of an entry depends on that
    entry's file alone: between two builds that both return a table, a key
    keeps its token when the bytes of its own file are the same, whatever
    happened to the other files of the registry. *)
Theorem production_token_is_local :
  forall (registry : object string) (w1 w2 : world) t1 t2 key path,
    is_registry registry = true ->
    build_mode w1 = Production ->
    build_mode w2 = Production ->
    fst (cacheBust_over registry w1) = Return t1 ->
    fst (cacheBust_over registry w2) = Return t2 ->
    In (key, path) (Object_entries registry) ->
    disk w1 path = disk w2 path ->
    obj_get key t1 = obj_get key t2.
Proof.
  intros registry w1 w2 t1 t2 key path Hreg M1 M2 T1 T2 Hin Hd.
  unfold cacheBust_over, Object_entries in *.
  destruct (reduce_returned_readable registry [] w1 t1 path M1 T1
              (In_paths _ _ _ Hin)) as [bytes Hb].
  assert (Hk : key <> "__proto__").
  { intros ->. apply (is_registry_ordinary _ Hreg). eapply In_keys; eauto. }
  rewrite (reduce_value_production registry [] w1 t1 key path bytes
             M1 T1 (is_registry_NoDup _ Hreg) Hk Hin Hb).
  rewrite Hd in Hb.
  rewrite (reduce_value_production registry [] w2 t2 key path bytes
             M2 T2 (is_registry_NoDup _ Hreg) Hk Hin Hb).
  reflexivity.
Qed.

Lemma production_token_is_local_witness :
  obj_get "mainJs" compiled_table = obj_get "mainJs" rebuilt_table.
Proof.
  apply (production_token_is_local files prod_world prod_world_rebuilt
           compiled_table rebuilt_table
           "mainJs" "./src/compiled-assets/main.js").
  - reflexivity.
  - reflexivity.
  - reflexivity.
  - vm_compute. reflexivity.
  - vm_compute. reflexivity.
  - simpl. auto.
  - reflexivity.
Defined.

(** ** The effects of a run, event by event *)

Lemma reduce_events l : forall acc w,
  trace (snd (reduce callback l acc w))
  = (trace w ++ run_events (build_mode w) (clock w) (samples w)
                           (processed w (map snd l)))%list.
Proof.
  induction l as [|[k p] l IH]; intros acc w.
  - unfold processed. simpl. destruct (build_mode w); simpl;
      now rewrite app_nil_r.
  - rewrite reduce_cons. destruct (build_mode w) eqn:Hm.
    + assert (Hev : entry_events w p
                    = [EvNow (clock w (samples w)); EvRead p])
        by (unfold entry_events; now rewrite Hm).
      rewrite (bust_of_production _ _ Hm). unfold processed. rewrite Hm.
      cbn [map snd attempted run_events]. destruct (disk w p) as [b|].
      * rewrite IH, processed_after_entry, build_mode_after_entry, Hm.
        unfold processed. rewrite Hm.
        cbn [after_entry trace clock samples disk]. rewrite Hev.
        now rewrite <- app_assoc.
      * cbn [snd after_entry trace run_events]. now rewrite Hev.
    + assert (Hev : entry_events w p = [EvNow (clock w (samples w))])
        by (unfold entry_events; now rewrite Hm).
      rewrite (bust_of_development _ _ Hm). unfold processed. rewrite Hm.
      cbn [map snd run_events].
      rewrite IH, processed_after_entry, build_mode_after_entry, Hm.
      unfold processed. rewrite Hm.
      cbn [after_entry trace clock samples disk]. rewrite Hev.
      now rewrite <- app_assoc.
Qed.

(** X4.  The effects of a run, in full and in order: for each entry it
    processes -- all of them, or in a production build those up to the
    first unreadable file -- the callback first samples the clock, and
    then, in a production build only, opens the entry's file.  The clock is
    thus sampled once per processed entry in a production build too, where
    the sample is not used. *)
Theorem resolver_event_trace :
  forall (registry : object string) (w : world),
    events_of (cacheBust_over registry) w
    = run_events (build_mode w) (clock w) (samples w)
                 (processed w (paths registry))
    /\ samples (snd (cacheBust_over registry w))
       = samples w + List.length (processed w (paths registry)).
Proof.
  intros registry w. unfold cacheBust_over, paths, Object_entries. split.
  - unfold events_of. now rewrite reduce_events, skipn_length_app.
  - now destruct (reduce_trace registry [] w) as (_ & _ & _ & _ & Hn).
Qed.

Example trace_of_production_run :
  events_of cacheBust prod_world
  = [ EvNow 1600000000000; EvRead "./src/compiled-assets/main.css";
      EvNow 1600000000001; EvRead "./src/compiled-assets/main.js";
      EvNow 1600000000002; EvRead "./src/compiled-assets/vendor.js" ].
Proof. vm_compute. reflexivity. Qed.

Example trace_of_failing_run :
  events_of cacheBust prod_world_partial
  = [ EvNow 1600000000000; EvRead "./src/compiled-assets/main.css";
      EvNow 1600000000001; EvRead "./src/compiled-assets/main.js" ].
Proof. vm_compute. reflexivity. Qed.

(** ** The enumeration order of the table *)

(** X13.  For every registry, not only the one of [cacheBust], a table the
    resolver returns enumerates its keys exactly as the registry does --
    array-index keys first and ascending, then the others as declared --
    and is itself in enumeration order. *)
Theorem table_enumerates_like_registry :
  forall (registry : object string) (w : world) table,
    is_registry registry = true ->
    fst (cacheBust_over registry w) = Return table ->
    Object_keys table = Object_keys registry
    /\ is_object table = true.
Proof.
  intros registry w table Hreg Ht. split.
  - now apply (cacheBust_over_keys_in_order registry w).
  - unfold cacheBust_over, Object_entries in Ht.
    now apply (reduce_is_object _ _ _ _ Ht).
Qed.

Lemma table_enumerates_like_registry_witness :
  Object_keys [ ("2", VNumber 1600000000000); ("10", VNumber 1600000000001);
                ("home", VNumber 1600000000002) ]
  = Object_keys [ ("2", "a.css"); ("10", "b.css"); ("home", "c.css") ]
  /\ is_object [ ("2", VNumber 1600000000000); ("10", VNumber 1600000000001);
                 ("home", VNumber 1600000000002) ] = true.
Proof.
  apply (table_enumerates_like_registry
           [ ("2", "a.css"); ("10", "b.css"); ("home", "c.css") ]
           dev_world).
  - reflexivity.
  - vm_compute. reflexivity.
Defined.

(** ** The permalink of the pages under the source root *)

Lemma append_assoc (s t u : string) : (s ++ t) ++ u = s ++ t ++ u.
Proof. induction s; simpl; congruence. Qed.

Lemma prefix_append (p s : string) : String.prefix p (p ++ s) = true.
Proof.
  induction p as [|c p IH]; simpl; [now destruct s|].
  destruct (ascii_dec c c); [exact IH | congruence].
Qed.

Lemma indexOf_at_front (p s : string) :
  String.prefix p s = true -> indexOf p s = Some 0.
Proof. intros H. destruct s; cbn [indexOf]; now rewrite H. Qed.

(** A pattern the string starts with is replaced there. *)
Lemma replace_at_front (p r s : string) : replace p r (p ++ s) = r ++ s.
Proof.
  rewrite replace_indexOf, (indexOf_at_front _ _ (prefix_append p s)).
  cbn [Nat.add]. rewrite drop_app_length.
  destruct (p ++ s); reflexivity.
Qed.

Lemma endsWith_append (s t : string) : endsWith (s ++ t) t = true.
Proof.
  unfold endsWith. rewrite length_append, andb_true_iff. split.
  - apply Nat.leb_le. lia.
  - replace (String.length s + String.length t - String.length t)
      with (String.length s) by lia.
    rewrite drop_app_length. apply String.eqb_refl.
Qed.

Ltac split_ascii :=
  repeat match goal with
         | |- context [ascii_dec ?a ?b] =>
             destruct (ascii_dec a b) as [?E|?E];
             [try discriminate E; try subst | ]
         end.

(** ["/index"] cannot begin inside a string and end inside a ["/index"]
    appended to it: none of its proper suffixes begins with a slash. *)
Lemma index_no_straddle (x : string) :
  x <> "" ->
  String.prefix "/index" (x ++ "/index") = true ->
  String.prefix "/index" x = true.
Proof.
  destruct x as [|c1 [|c2 [|c3 [|c4 [|c5 [|c6 x]]]]]]; intros Hne;
    try congruence; cbn [String.append String.prefix];
    split_ascii; try discriminate; auto.
  intros _. now destruct x.
Qed.

Lemma indexOf_index_appended (d : string) :
  indexOf "/index" d = None ->
  indexOf "/index" (d ++ "/index") = Some (String.length d).
Proof.
  induction d as [|c d IH]; [reflexivity|].
  cbn [indexOf String.append String.length].
  destruct (String.prefix "/index" (String c d)) eqn:E; [discriminate|].
  destruct (indexOf "/index" d) eqn:Ei; [discriminate|]. intros _.
  destruct (String.prefix "/index" (String c (d ++ "/index"))) eqn:E'.
  - apply (index_no_straddle (String c d)) in E'; congruence.
  - now rewrite IH.
Qed.

(** X5.  Whatever the stem, the permalink ends in ["/index.html"]: every
    page is written as the index document of a directory of its own, and
    its output path ends in [".html"]. *)
Theorem permalink_ends_with_index_html :
  forall stem : string,
    endsWith (permalink stem) "/index.html" = true
    /\ endsWith (permalink stem) ".html" = true.
Proof.
  intros stem. unfold permalink. split.
  - apply endsWith_append.
  - change "/index.html" with ("/index" ++ ".html").
    rewrite <- append_assoc. apply endsWith_append.
Qed.

(** X6.  A page under the source root whose path holds no ["/index"] is
    routed to that very path, as a directory: [/_pages/foo/bar] goes to
    [/foo/bar/index.html].  Only the leading ["/_pages"] is removed; one that
    comes later in the path stays. *)
Theorem permalink_of_leaf_page :
  forall rest : string,
    indexOf "/index" rest = None ->
    permalink ("/_pages" ++ rest) = rest ++ "/index.html".
Proof.
  intros rest H. unfold permalink.
  rewrite (replace_at_front "/_pages" "" rest). cbn [String.append].
  now rewrite (replace_indexOf "/index"), H.
Qed.

Lemma permalink_of_leaf_page_witness :
  permalink ("/_pages" ++ "/blog/_pages/about")
  = "/blog/_pages/about" ++ "/index.html".
Proof. apply (permalink_of_leaf_page "/blog/_pages/about"). reflexivity. Defined.

(** X7.  The index page of a directory under the source root whose path
    holds no other ["/index"] is routed to the directory itself:
    [/_pages/foo/index] goes to [/foo/index.html], and the root index page
    to [/index.html]. *)
Theorem permalink_of_index_page :
  forall dir : string,
    indexOf "/index" dir = None ->
    permalink ("/_pages" ++ dir ++ "/index") = dir ++ "/index.html".
Proof.
  intros dir H. apply permalink_trailing_index.
  - apply (replace_at_front "/_pages" "" (dir ++ "/index")).
  - now apply indexOf_index_appended.
Qed.

Lemma permalink_of_index_page_witness :
  permalink ("/_pages" ++ "/foo/baz" ++ "/index") = "/foo/baz" ++ "/index.html".
Proof. apply (permalink_of_index_page "/foo/baz"). reflexivity. Defined.

(** X8.  A page and the index page of the directory of the same name are
    routed to the same place: [/_pages/foo] and [/_pages/foo/index] both
    go to [/foo/index.html]. *)
Theorem permalink_collision :
  forall dir : string,
    indexOf "/index" dir = None ->
    permalink ("/_pages" ++ dir ++ "/index") = permalink ("/_pages" ++ dir).
Proof.
  intros dir H.
  rewrite (permalink_trailing_index ("/_pages" ++ dir ++ "/index") dir
             (replace_at_front "/_pages" "" (dir ++ "/index"))
             (indexOf_index_appended dir H)).
  unfold permalink.
  rewrite (replace_at_front "/_pages" "" dir). cbn [String.append].
  now rewrite (replace_indexOf "/index"), H.
Qed.

Lemma permalink_collision_witness :
  permalink ("/_pages" ++ "/foo" ++ "/index") = permalink ("/_pages" ++ "/foo").
Proof. apply (permalink_collision "/foo"). reflexivity. Defined.

(** X9.  A stem that does not hold the source root is not rejected: the
    template lets it through, and if it holds no ["/index"] either the
    permalink is the stem itself followed by ["/index.html"]. *)
Theorem permalink_without_source_root :
  forall stem : string,
    indexOf "/_pages" stem = None ->
    indexOf "/index" stem = None ->
    permalink stem = stem ++ "/index.html".
Proof.
  intros stem Hroot Hindex. unfold permalink.
  rewrite (replace_indexOf "/_pages"), Hroot.
  now rewrite (replace_indexOf "/index"), Hindex.
Qed.

Lemma permalink_without_source_root_witness :
  permalink "/about" = "/about" ++ "/index.html".
Proof. apply (permalink_without_source_root "/about"); reflexivity. Defined.

(** ** The Eleventy configuration *)

Lemma eleventy_js_run minify w :
  eleventy_js minify w
  = (Return
       (([ setUseGitIgnore false;
           addWatchTarget "./src/compiled-assets/main.css";
           addWatchTarget "./src/compiled-assets/main.js";
           addWatchTarget "./src/compiled-assets/vendor.js";
           addPassthroughCopy (CopyAs "src/compiled-assets" "assets");
           addPassthroughCopy (CopyPath "src/images") ]
         ++ match build_mode w with
            | Production => [addTransform "htmlmin" (htmlmin_transform minify)]
            | Development => []
            end)%list,
        mkSettings "_components" "src" "_layouts" "dist" "ejs" ["ejs"; "md"]),
     w).
Proof.
  unfold eleventy_js, bind, process_env_ELEVENTY_ENV, ret, build_mode.
  destruct (is_production (ELEVENTY_ENV w)); reflexivity.
Qed.

Example development_page_is_not_minified :
  forall calls settings,
    fst (eleventy_js sample_minify dev_world) = Return (calls, settings) ->
    run_transforms calls "<p> a b </p>" (PathString "dist/index.html")
    = Return "<p> a b </p>".
Proof. intros calls settings H. vm_compute in H. now inversion H. Qed.

Example production_page_is_minified :
  forall calls settings,
    fst (eleventy_js sample_minify prod_world) = Return (calls, settings) ->
    run_transforms calls "<p> a b </p>" (PathString "dist/index.html")
    = Return "<p>ab</p>"
    /\ run_transforms calls "a b" (PathString "dist/feed.xml") = Return "a b".
Proof. intros calls settings H. vm_compute in H. now inversion H. Qed.

(** A template that writes no file stops a production build. *)
Example production_page_without_output :
  forall calls settings,
    fst (eleventy_js sample_minify prod_world) = Return (calls, settings) ->
    run_transforms calls "a b" PathFalse
    = Throw (TypeError "outputPath.endsWith is not a function").
Proof. intros calls settings H. vm_compute in H. now inversion H. Qed.

(** X11.  In a production build every page routed by the permalink
    template is minified, whatever its stem and wherever the output
    directory is: its output path ends in [".html"]. *)
Theorem routed_pages_are_minified :
  forall (minify : string -> minify_options -> string) (w : world)
         calls settings (out stem content : string),
    build_mode w = Production ->
    fst (eleventy_js minify w) = Return (calls, settings) ->
    run_transforms calls content (PathString (out ++ permalink stem))
    = Return (minify content htmlmin_options).
Proof.
  intros minify w calls settings out stem content Hm H.
  rewrite eleventy_js_run, Hm in H. cbn [fst] in H.
  inversion H; subst. cbn [app run_transforms]. unfold htmlmin_transform.
  assert (E : endsWith (out ++ permalink stem) ".html" = true).
  { unfold permalink. change "/index.html" with ("/index" ++ ".html").
    rewrite <- !append_assoc. apply endsWith_append. }
  now rewrite E.
Qed.

Lemma routed_pages_are_minified_witness :
  run_transforms
    ([ setUseGitIgnore false;
       addWatchTarget "./src/compiled-assets/main.css";
       addWatchTarget "./src/compiled-assets/main.js";
       addWatchTarget "./src/compiled-assets/vendor.js";
       addPassthroughCopy (CopyAs "src/compiled-assets" "assets");
       addPassthroughCopy (CopyPath "src/images");
       addTransform "htmlmin" (htmlmin_transform sample_minify) ])
    "<p> a b </p>" (PathString ("dist" ++ permalink "/_pages/foo/index"))
  = Return (sample_minify "<p> a b </p>" htmlmin_options).
Proof.
  apply (routed_pages_are_minified sample_minify prod_world _
           (mkSettings "_components" "src" "_layouts" "dist" "ejs"
                       ["ejs"; "md"])
           "dist" "/_pages/foo/index" "<p> a b </p>"); reflexivity.
Defined.

(** X12.  In every build the configuration function registers as watch
    targets exactly the files the cache-bust resolver fingerprints, in the
    same order: a change of any file that determines a token is watched. *)
Theorem watched_files_are_registry_files :
  forall (minify : string -> minify_options -> string) (w : world),
    exists calls settings,
      eleventy_js minify w = (Return (calls, settings), w)
      /\ watch_targets calls = paths files.
Proof.
  intros minify w. rewrite eleventy_js_run.
  eexists. eexists. split; [reflexivity|].
  destruct (build_mode w); reflexivity.
Qed.
